(** * CapLevelController: capping the stream level to the player size

    A shallow embedding of hls.js' [CapLevelController]
    (src/controller/cap-level-controller.ts) and the properties of it that
    the specification states.

    Numbers.  The fields of a level ([width], [height], [bitrate]) and every
    level index are integers and are modelled in [Z].  What is measured on
    the page (the bounding box of the video element, the device pixel ratio)
    is fractional and is modelled in [Q]; NaN and the infinities are not
    modelled, except [Number.POSITIVE_INFINITY] as the "uncapped" value of
    the controller's [autoLevelCapping].  Sums and products in [Q] are exact
    where the code rounds to a double ([mediaWidth], [mediaHeight]): the two
    can select different levels only when a scaled footprint falls within a
    rounding error of a level's dimension, and no statement below depends on
    the value of such a product beyond its comparison with integers.

    Reads of the page ([getBoundingClientRect()], the element's attributes,
    [self.devicePixelRatio]) are calls too, but they change nothing and are
    not logged: the [trace] records the writes to [hls] and the calls of the
    stream controller and of the timer functions only.

    Effects.  The methods mutate the controller ([this]), write to the shared
    [hls] object, read the page ([self], the DOM) and may throw.  They are
    embedded in a small state-and-exception monad over a [World]; the calls
    that leave the controller are logged in the world's [trace] in the order
    in which they happen.

    Scope.  [hls.levels], [hls.maxLevelCapping], [hls.autoLevelCapping] and
    [hls.firstLevel] are accessors of the [Hls] class, which is not part of
    this file; they are taken as plain fields.  The registration of the
    listeners and [destroy()], after which no callback runs, are left out. *)

From Stdlib Require Import ZArith QArith List Bool Lia Sorted.
From Stdlib Require String.
Import ListNotations.

Open Scope Z_scope.

(** ** Data *)

(** [Level] (types/level.ts): the three fields the controller reads. *)
Module Level.
Record t : Type := mk { width : Z; height : Z; bitrate : Z }.
End Level.

(** [type RestrictedLevel = { width; height; bitrate }]. *)
Module RestrictedLevel.
Record t : Type := mk { width : Z; height : Z; bitrate : Z }.
End RestrictedLevel.

(** [{ width: number; height: number }], the type of [clientRect]. *)
Module Rect.
Record t : Type := mk { width : Q; height : Q }.
End Rect.

(** What [getBoundingClientRect()] returns. *)
Module DOMRect.
Record t : Type :=
  mk { width : Q; height : Q; left : Q; right : Q; top : Q; bottom : Q }.
End DOMRect.

(** DOM objects and the stream controller are references. *)
Definition HTMLVideoElement := nat.
Definition StreamController := nat.

(** [MediaAttachingData.media] is an [HTMLMediaElement]; the controller asks
    whether it is an [instanceof HTMLVideoElement]. *)
Inductive HTMLMediaElement : Type :=
| VideoElement (v : HTMLVideoElement)
| OtherMediaElement (a : nat).

(** A JavaScript number that is an integer or [Number.POSITIVE_INFINITY]. *)
Inductive number : Type :=
| Finite (z : Z)
| POSITIVE_INFINITY.

(** [a > b] for an integer [a] and such a number [b]. *)
Definition gt_number (a : Z) (b : number) : bool :=
  match b with
  | Finite z => z <? a
  | POSITIVE_INFINITY => false
  end.

Inductive JsError : Type :=
| TypeError.

(** The private fields of the controller, [hls] apart (it is shared and lives
    in the world). *)
Record CapLevelController : Type := mkController {
  autoLevelCapping : number;
  firstLevel : Z;
  media : option HTMLVideoElement;
  restrictedLevels : list RestrictedLevel.t;
  timer : option positive;
  clientRect : option Rect.t;
  streamController : option StreamController
}.

(** The part of the [Hls] object the controller reads and writes. *)
Module Hls.
Record t : Type := mk {
  levels : list Level.t;
  capLevelToPlayerSize : bool;     (* config.capLevelToPlayerSize *)
  ignoreDevicePixelRatio : bool;   (* config.ignoreDevicePixelRatio *)
  maxLevelCapping : Z;
  autoLevelCapping : Z;
  firstLevel : Z
}.
End Hls.

(** The page: layout of the media elements, their [width] and [height]
    attributes, and [self.devicePixelRatio] ([None] when reading it
    throws). *)
Record Page : Type := mkPage {
  getBoundingClientRect : HTMLVideoElement -> DOMRect.t;
  widthAttr : HTMLVideoElement -> Q;
  heightAttr : HTMLVideoElement -> Q;
  devicePixelRatio : option Q
}.

(** Calls that leave the controller, as logged in the trace. *)
Inductive Effect : Type :=
| SetAutoLevelCapping (v : Z)              (* hls.autoLevelCapping = v *)
| SetFirstLevel (v : Z)                    (* hls.firstLevel = v *)
| NextLevelSwitch (sc : StreamController)  (* streamController.nextLevelSwitch() *)
| SetInterval (id : positive)              (* self.setInterval(..., 1000) *)
| ClearInterval (id : option positive).    (* self.clearInterval(this.timer) *)

Record World : Type := mkWorld {
  this : CapLevelController;
  hls : Hls.t;
  page : Page;
  nextTimerId : positive;   (* what the next [setInterval] returns *)
  trace : list Effect       (* oldest first *)
}.

(** ** The monad *)

Inductive Outcome (A : Type) : Type :=
| Return (a : A) (w : World)
| Throw (e : JsError) (w : World).
Arguments Return {A} a w.
Arguments Throw {A} e w.

Definition M (A : Type) : Type := World -> Outcome A.

Definition ret {A : Type} (a : A) : M A := fun w => Return a w.

Definition bind {A B : Type} (m : M A) (k : A -> M B) : M B :=
  fun w =>
    match m w with
    | Return a w' => k a w'
    | Throw e w' => Throw e w'
    end.

Definition throw {A : Type} (e : JsError) : M A := fun w => Throw e w.

Declare Scope js_scope.
Delimit Scope js_scope with js.
Notation "x <- m ;; k" := (bind m (fun x => k))
  (at level 61, m at next level, right associativity) : js_scope.
Notation "m ;; k" := (bind m (fun _ => k))
  (at level 61, right associativity) : js_scope.
Open Scope js_scope.

(** The world in which an outcome leaves the program. *)
Definition world_of {A : Type} (o : Outcome A) : World :=
  match o with
  | Return _ w => w
  | Throw _ w => w
  end.

Definition read {A : Type} (f : World -> A) : M A := fun w => Return (f w) w.

Definition update_this (f : CapLevelController -> CapLevelController) : M unit :=
  fun w => Return tt (mkWorld (f (this w)) (hls w) (page w) (nextTimerId w) (trace w)).

Definition update_hls (f : Hls.t -> Hls.t) : M unit :=
  fun w => Return tt (mkWorld (this w) (f (hls w)) (page w) (nextTimerId w) (trace w)).

Definition emit (e : Effect) : M unit :=
  fun w => Return tt (mkWorld (this w) (hls w) (page w) (nextTimerId w) (trace w ++ [e])).

(** [self.setInterval(...)]: hands out a fresh, non-zero timer id. *)
Definition setInterval : M positive :=
  fun w => Return (nextTimerId w)
             (mkWorld (this w) (hls w) (page w) (Pos.succ (nextTimerId w))
                      (trace w ++ [SetInterval (nextTimerId w)])).

(** Field assignments [this.f = v]. *)
Definition set_autoLevelCapping (v : number) (c : CapLevelController) :=
  mkController v (firstLevel c) (media c) (restrictedLevels c) (timer c)
               (clientRect c) (streamController c).
Definition set_firstLevel (v : Z) (c : CapLevelController) :=
  mkController (autoLevelCapping c) v (media c) (restrictedLevels c) (timer c)
               (clientRect c) (streamController c).
Definition set_media (v : option HTMLVideoElement) (c : CapLevelController) :=
  mkController (autoLevelCapping c) (firstLevel c) v (restrictedLevels c) (timer c)
               (clientRect c) (streamController c).
Definition set_restrictedLevels (v : list RestrictedLevel.t) (c : CapLevelController) :=
  mkController (autoLevelCapping c) (firstLevel c) (media c) v (timer c)
               (clientRect c) (streamController c).
Definition set_timer (v : option positive) (c : CapLevelController) :=
  mkController (autoLevelCapping c) (firstLevel c) (media c) (restrictedLevels c) v
               (clientRect c) (streamController c).
Definition set_clientRect (v : option Rect.t) (c : CapLevelController) :=
  mkController (autoLevelCapping c) (firstLevel c) (media c) (restrictedLevels c)
               (timer c) v (streamController c).
Definition set_streamController (v : option StreamController) (c : CapLevelController) :=
  mkController (autoLevelCapping c) (firstLevel c) (media c) (restrictedLevels c)
               (timer c) (clientRect c) v.

(** Assignments [hls.autoLevelCapping = v] and [hls.firstLevel = v]. *)
Definition set_hls_autoLevelCapping (v : Z) (h : Hls.t) :=
  Hls.mk (Hls.levels h) (Hls.capLevelToPlayerSize h) (Hls.ignoreDevicePixelRatio h)
         (Hls.maxLevelCapping h) v (Hls.firstLevel h).
Definition set_hls_firstLevel (v : Z) (h : Hls.t) :=
  Hls.mk (Hls.levels h) (Hls.capLevelToPlayerSize h) (Hls.ignoreDevicePixelRatio h)
         (Hls.maxLevelCapping h) (Hls.autoLevelCapping h) v.

(** ** JavaScript helpers *)

(** [a[i]] for an integer [i]: [undefined] ([None]) out of range. *)
Definition index {A : Type} (a : list A) (i : Z) : option A :=
  if i <? 0 then None else nth_error a (Z.to_nat i).

(** [a.length]. *)
Definition length_Z {A : Type} (a : list A) : Z := Z.of_nat (length a).

(** [a.filter((x, index) => f(x, index))]. *)
Fixpoint filter_from {A : Type} (f : A -> nat -> bool) (i : nat) (a : list A) : list A :=
  match a with
  | [] => []
  | x :: rest =>
      if f x i then x :: filter_from f (S i) rest else filter_from f (S i) rest
  end.

Definition Array_filter {A : Type} (f : A -> nat -> bool) (a : list A) : list A :=
  filter_from f 0%nat a.

(** Truthiness of a number, and [a || b]. *)
Definition truthy (x : Q) : bool := negb (Qeq_bool x 0).
Definition or_else (a b : Q) : Q := if truthy a then a else b.

(** [a > b] and [a >= b] on measured numbers. *)
Definition Qgtb (a b : Q) : bool := negb (Qle_bool a b).
Definition Qgeb (a b : Q) : bool := Qle_bool b a.

(** ** The methods of the controller *)

(** The constructor's field initialisation. *)
Definition constructor : CapLevelController :=
  mkController POSITIVE_INFINITY (-1) None [] None None None.

Definition setStreamController (sc : StreamController) : M unit :=
  update_this (set_streamController (Some sc)).

(** The callback of [restrictedLevels.some] in [isLevelAllowed], for a level
    that is defined. *)
Definition sameLevel (level : Level.t) (restrictedLevel : RestrictedLevel.t) : bool :=
  (Level.bitrate level =? RestrictedLevel.bitrate restrictedLevel)
  && (Level.width level =? RestrictedLevel.width restrictedLevel)
  && (Level.height level =? RestrictedLevel.height restrictedLevel).

(** [!restrictedLevels.some(...)] for a level that is defined. *)
Definition levelAllowed (restricted : list RestrictedLevel.t) (level : Level.t) : bool :=
  negb (existsb (sameLevel level) restricted).

(** [isLevelAllowed(level)].  The argument may be [undefined] (the caller
    indexes [hls.levels] without a range check): [some] does not call its
    callback on an empty array, and the callback's first read
    [level.bitrate] throws on a non-empty one. *)
Definition isLevelAllowed (level : option Level.t) : M bool :=
  restricted <- read (fun w => restrictedLevels (this w)) ;;
  match level with
  | Some l => ret (levelAllowed restricted l)
  | None =>
      match restricted with
      | [] => ret true
      | _ :: _ => throw TypeError
      end
  end.

(** [onFpsDropLevelCapping(event, data)] with [data.droppedLevel]. The object
    literal is evaluated before [push] is called, so reading [level.bitrate]
    of an undefined level throws before the array changes. *)
Definition onFpsDropLevelCapping (droppedLevel : Z) : M unit :=
  ls <- read (fun w => Hls.levels (hls w)) ;;
  let level := index ls droppedLevel in
  allowed <- isLevelAllowed level ;;
  if allowed then
    match level with
    | Some l =>
        update_this (fun c =>
          set_restrictedLevels
            (restrictedLevels c ++
               [RestrictedLevel.mk (Level.width l) (Level.height l) (Level.bitrate l)])
            c)
    | None => throw TypeError
    end
  else ret tt.

(** [onMediaAttaching(event, data)] with [data.media]. *)
Definition onMediaAttaching (m : HTMLMediaElement) : M unit :=
  update_this (set_media match m with
                         | VideoElement v => Some v
                         | OtherMediaElement _ => None
                         end) ;;
  update_this (set_clientRect None).

(** The value of the local [boundsRect] of [getDimensions()] when nothing is
    cached: the bounding box of the media element, else its [width] and
    [height] attributes, else zero. *)
Definition boundsRect (p : Page) (m : option HTMLVideoElement) : Rect.t :=
  match m with
  | Some v =>
      let cr := getBoundingClientRect p v in
      if negb (truthy (DOMRect.width cr)) && negb (truthy (DOMRect.height cr))
      then
        Rect.mk
          (or_else (DOMRect.right cr - DOMRect.left cr)%Q
                   (or_else (widthAttr p v) 0%Q))
          (or_else (DOMRect.bottom cr - DOMRect.top cr)%Q
                   (or_else (heightAttr p v) 0%Q))
      else Rect.mk (DOMRect.width cr) (DOMRect.height cr)
  | None => Rect.mk 0%Q 0%Q
  end.

(** [getDimensions()]. *)
Definition getDimensions : M Rect.t :=
  cached <- read (fun w => clientRect (this w)) ;;
  match cached with
  | Some r => ret r
  | None =>
      m <- read (fun w => media (this w)) ;;
      p <- read page ;;
      update_this (set_clientRect (Some (boundsRect p m))) ;;
      ret (boundsRect p m)
  end.

(** The value of the local [pixelRatio] of [contentScaleFactor]: 1 unless
    the device pixel ratio is to be used and can be read. *)
Definition pixelRatio (h : Hls.t) (p : Page) : Q :=
  if negb (Hls.ignoreDevicePixelRatio h) then
    match devicePixelRatio p with
    | Some r => r
    | None => 1%Q        (* the read threw: caught, pixelRatio stays 1 *)
    end
  else 1%Q.

(** [get contentScaleFactor()]. *)
Definition contentScaleFactor : M Q :=
  h <- read hls ;;
  p <- read page ;;
  ret (pixelRatio h p).

(** [get mediaWidth()] and [get mediaHeight()]. *)
Definition mediaWidth : M Q :=
  d <- getDimensions ;;
  s <- contentScaleFactor ;;
  ret (Rect.width d * s)%Q.

Definition mediaHeight : M Q :=
  d <- getDimensions ;;
  s <- contentScaleFactor ;;
  ret (Rect.height d * s)%Q.

(** [atGreatestBandwidth(curLevel, nextLevel)]. *)
Definition atGreatestBandwidth (curLevel : Level.t) (nextLevel : option Level.t) : bool :=
  match nextLevel with
  | None => true
  | Some n =>
      negb (Level.width curLevel =? Level.width n)
      || negb (Level.height curLevel =? Level.height n)
  end.

(** The condition of the [if] in the loop of [getMaxLevelByMediaSize]. *)
Definition covers (level : Level.t) (width height : Q) : bool :=
  Qgeb (inject_Z (Level.width level)) width
  || Qgeb (inject_Z (Level.height level)) height.

(** The [for] loop of [getMaxLevelByMediaSize], from position [i] on, where
    [levels] is what is left of the array at [i]: the position at which it
    breaks, [None] when it runs to the end. *)
Fixpoint firstMatch (levels : list Level.t) (i : nat) (width height : Q) : option nat :=
  match levels with
  | [] => None
  | level :: rest =>
      if covers level width height && atGreatestBandwidth level (hd_error rest)
      then Some i
      else firstMatch rest (S i) width height
  end.

(** [static getMaxLevelByMediaSize(levels, width, height)]. *)
Definition getMaxLevelByMediaSize (levels : list Level.t) (width height : Q) : Z :=
  match levels with
  | [] => -1
  | _ :: _ =>
      match firstMatch levels 0%nat width height with
      | Some i => Z.of_nat i
      | None => length_Z levels - 1
      end
  end.

(** The callback of [levels.filter] in [getMaxLevel].  The array has no
    holes, so [isLevelAllowed] is called on defined levels only, where it
    returns [levelAllowed] and neither throws nor writes. *)
Definition isValidLevel (restricted : list RestrictedLevel.t) (capLevelIndex : Z)
  (level : Level.t) (index : nat) : bool :=
  levelAllowed restricted level && (Z.of_nat index <=? capLevelIndex).

(** [getMaxLevel(capLevelIndex)]. *)
Definition getMaxLevel (capLevelIndex : Z) : M Z :=
  ls <- read (fun w => Hls.levels (hls w)) ;;
  match ls with
  | [] => ret (-1)
  | _ :: _ =>
      restricted <- read (fun w => restrictedLevels (this w)) ;;
      let validLevels := Array_filter (isValidLevel restricted capLevelIndex) ls in
      update_this (set_clientRect None) ;;
      width <- mediaWidth ;;
      height <- mediaHeight ;;
      let maxLevelByMediaSize := getMaxLevelByMediaSize validLevels width height in
      maxLevelCapping <- read (fun w => Hls.maxLevelCapping (hls w)) ;;
      if negb (maxLevelCapping =? -1)
      then ret (Z.min maxLevelCapping maxLevelByMediaSize)
      else ret maxLevelByMediaSize
  end.

(** [detectPlayerSize()]. *)
Definition detectPlayerSize : M unit :=
  m <- read (fun w => media (this w)) ;;
  measurable <-
    match m with
    | None => ret false
    | Some _ =>
        height <- mediaHeight ;;
        if Qgtb height 0
        then (width <- mediaWidth ;; ret (Qgtb width 0))
        else ret false
    end ;;
  if (measurable : bool) then
    ls <- read (fun w => Hls.levels (hls w)) ;;
    match ls with
    | [] => ret tt
    | _ :: _ =>
        cap <- getMaxLevel (length_Z ls - 1) ;;
        update_hls (set_hls_autoLevelCapping cap) ;;
        emit (SetAutoLevelCapping cap) ;;
        published <- read (fun w => Hls.autoLevelCapping (hls w)) ;;
        previous <- read (fun w => autoLevelCapping (this w)) ;;
        sc <- read (fun w => streamController (this w)) ;;
        (if gt_number published previous
         then match sc with
              | Some s => emit (NextLevelSwitch s)
              | None => ret tt
              end
         else ret tt) ;;
        published' <- read (fun w => Hls.autoLevelCapping (hls w)) ;;
        update_this (set_autoLevelCapping (Finite published'))
    end
  else ret tt.

(** [startCapping()]. *)
Definition startCapping : M unit :=
  t <- read (fun w => timer (this w)) ;;
  match t with
  | Some _ => ret tt
  | None =>
      update_this (set_autoLevelCapping POSITIVE_INFINITY) ;;
      first <- read (fun w => firstLevel (this w)) ;;
      cap <- getMaxLevel first ;;
      update_hls (set_hls_firstLevel cap) ;;
      emit (SetFirstLevel cap) ;;
      t' <- read (fun w => timer (this w)) ;;
      emit (ClearInterval t') ;;
      id <- setInterval ;;
      update_this (set_timer (Some id)) ;;
      detectPlayerSize
  end.

(** [stopCapping()]. *)
Definition stopCapping : M unit :=
  update_this (set_restrictedLevels []) ;;
  update_this (set_firstLevel (-1)) ;;
  update_this (set_autoLevelCapping POSITIVE_INFINITY) ;;
  t <- read (fun w => timer (this w)) ;;
  match t with
  | Some id =>
      emit (ClearInterval (Some id)) ;;
      update_this (set_timer None)
  | None => ret tt
  end.

(** [onManifestParsed(event, data)] with [data.firstLevel], [data.video]. *)
Definition onManifestParsed (dataFirstLevel : Z) (video : bool) : M unit :=
  update_this (set_restrictedLevels []) ;;
  update_this (set_firstLevel dataFirstLevel) ;;
  enabled <- read (fun w => Hls.capLevelToPlayerSize (hls w)) ;;
  if enabled && video then startCapping else ret tt.

(** [onBufferCodecs(event, data)] with the truthiness of [data.video]. *)
Definition onBufferCodecs (video : bool) : M unit :=
  enabled <- read (fun w => Hls.capLevelToPlayerSize (hls w)) ;;
  if enabled && video then startCapping else ret tt.

(** [onMediaDetaching()]. *)
Definition onMediaDetaching : M unit := stopCapping.

(** ** Driving the controller *)

(** What can happen to a controller between its construction and its
    destruction: the five notifications it listens to, a tick of its timer,
    the registration of the stream controller, and a change of what it only
    reads (the level list, the configuration and the explicit ceiling of
    [hls], the page). *)
Inductive Input : Type :=
| FPS_DROP_LEVEL_CAPPING (droppedLevel : Z)
| MEDIA_ATTACHING (m : HTMLMediaElement)
| MANIFEST_PARSED (dataFirstLevel : Z) (video : bool)
| BUFFER_CODECS (video : bool)
| MEDIA_DETACHING
| TimerTick
| RegisterStreamController (sc : StreamController)
| HostChange (h : Hls.t) (p : Page).

(** The host replaces what the controller reads; the two fields of [hls] the
    controller writes keep their values. *)
Definition hostChange (h : Hls.t) (p : Page) : M unit :=
  fun w =>
    Return tt
      (mkWorld (this w)
         (Hls.mk (Hls.levels h) (Hls.capLevelToPlayerSize h)
                 (Hls.ignoreDevicePixelRatio h) (Hls.maxLevelCapping h)
                 (Hls.autoLevelCapping (hls w)) (Hls.firstLevel (hls w)))
         p (nextTimerId w) (trace w)).

Definition handle (i : Input) : M unit :=
  match i with
  | FPS_DROP_LEVEL_CAPPING d => onFpsDropLevelCapping d
  | MEDIA_ATTACHING m => onMediaAttaching m
  | MANIFEST_PARSED f v => onManifestParsed f v
  | BUFFER_CODECS v => onBufferCodecs v
  | MEDIA_DETACHING => onMediaDetaching
  | TimerTick => detectPlayerSize
  | RegisterStreamController sc => setStreamController sc
  | HostChange h p => hostChange h p
  end.

(** A callback that throws leaves the controller as it was when it threw;
    the next callback runs on that state. *)
Fixpoint run (inputs : list Input) (w : World) : World :=
  match inputs with
  | [] => w
  | i :: rest => run rest (world_of (handle i w))
  end.

(** A freshly constructed controller in a given host. *)
Definition newWorld (h : Hls.t) (p : Page) : World :=
  mkWorld constructor h p 1%positive [].

Definition attachesVideo (i : Input) : bool :=
  match i with
  | MEDIA_ATTACHING (VideoElement _) => true
  | _ => false
  end.

(** ** Notions used in the statements *)

(** The value a computation returned, if it returned. *)
Definition value_of {A : Type} (o : Outcome A) : option A :=
  match o with
  | Return a _ => Some a
  | Throw _ _ => None
  end.

(** [this.clientRect = v], on the world. *)
Definition with_clientRect (v : option Rect.t) (w : World) : World :=
  mkWorld (set_clientRect v (this w)) (hls w) (page w) (nextTimerId w) (trace w).

(** The world after a fresh measurement has been cached. *)
Definition measured (w : World) : World :=
  with_clientRect (Some (boundsRect (page w) (media (this w)))) w.

(** The target footprint [getMaxLevel] passes to [getMaxLevelByMediaSize]:
    the fresh measurement scaled by the pixel ratio. *)
Definition targetWidth (w : World) : Q :=
  (Rect.width (boundsRect (page w) (media (this w))) * pixelRatio (hls w) (page w))%Q.
Definition targetHeight (w : World) : Q :=
  (Rect.height (boundsRect (page w) (media (this w))) * pixelRatio (hls w) (page w))%Q.

(** The selector without its state: lines 154-163 of [getMaxLevel], the
    filter followed by [getMaxLevelByMediaSize]. *)
Definition selectCap (restricted : list RestrictedLevel.t) (rungs : list Level.t)
  (targetW targetH : Q) (ceilingIndex : Z) : Z :=
  getMaxLevelByMediaSize
    (Array_filter (isValidLevel restricted ceilingIndex) rungs) targetW targetH.

(** The explicit ceiling of [getMaxLevel], lines 165-169. *)
Definition clampToMaxLevelCapping (maxLevelCapping sizeCap : Z) : Z :=
  if negb (maxLevelCapping =? -1) then Z.min maxLevelCapping sizeCap else sizeCap.

(** What [getDimensions()] returns: the cached box if there is one, a fresh
    measurement otherwise; and the world it leaves, with that box cached. *)
Definition dimensions (w : World) : Rect.t :=
  match clientRect (this w) with
  | Some r => r
  | None => boundsRect (page w) (media (this w))
  end.

Definition remembered (w : World) : World :=
  with_clientRect (Some (dimensions w)) w.

(** The footprint a tick reads at its gate, line 127. *)
Definition gateWidth (w : World) : Q :=
  (Rect.width (dimensions w) * pixelRatio (hls w) (page w))%Q.
Definition gateHeight (w : World) : Q :=
  (Rect.height (dimensions w) * pixelRatio (hls w) (page w))%Q.

(** The cap a tick computes, line 131, and the world it leaves when it is
    not skipped. *)
Definition tickCap (w : World) : Z :=
  clampToMaxLevelCapping (Hls.maxLevelCapping (hls w))
    (selectCap (restrictedLevels (this w)) (Hls.levels (hls w))
               (targetWidth w) (targetHeight w)
               (length_Z (Hls.levels (hls w)) - 1)).

Definition tickEffects (w : World) : list Effect :=
  SetAutoLevelCapping (tickCap w)
  :: (if gt_number (tickCap w) (autoLevelCapping (this w))
      then match streamController (this w) with
           | Some s => [NextLevelSwitch s]
           | None => []
           end
      else []).

Definition afterTick (w : World) : World :=
  mkWorld (set_autoLevelCapping (Finite (tickCap w)) (this (measured w)))
          (set_hls_autoLevelCapping (tickCap w) (hls w))
          (page w) (nextTimerId w) (trace w ++ tickEffects w).

(** A method keeps a property of the world, however it ends. *)
Definition preserves {A : Type} (P : World -> Prop) (m : M A) : Prop :=
  forall w, P w -> P (world_of (m w)).

(** No triple occurs twice in the exclusion set. *)
Definition NoDuplicates (w : World) : Prop :=
  NoDup (restrictedLevels (this w)).

(** No surface is attached and [hls.autoLevelCapping] is [cap]. *)
Definition Frozen (cap : Z) (w : World) : Prop :=
  media (this w) = None /\ Hls.autoLevelCapping (hls w) = cap.

(** A level covers the footprint on one axis at least. *)
Definition Covers (level : Level.t) (targetW targetH : Q) : Prop :=
  (targetW <= inject_Z (Level.width level))%Q
  \/ (targetH <= inject_Z (Level.height level))%Q.

(** Dimension pairs do not decrease from one level to the next. *)
Definition dims_le (a b : Level.t) : Prop :=
  Level.width a <= Level.width b /\ Level.height a <= Level.height b.

(** The triple under which a level is excluded. *)
Definition restrictedOf (l : Level.t) : RestrictedLevel.t :=
  RestrictedLevel.mk (Level.width l) (Level.height l) (Level.bitrate l).

(** The specification's selector, step 3: the candidates keep the index they
    have in the unfiltered list, and the position found among the candidates
    is mapped back to that index. *)
Fixpoint candidates_from (restricted : list RestrictedLevel.t) (ceilingIndex : Z)
  (i : nat) (rungs : list Level.t) : list (nat * Level.t) :=
  match rungs with
  | [] => []
  | x :: rest =>
      if isValidLevel restricted ceilingIndex x i
      then (i, x) :: candidates_from restricted ceilingIndex (S i) rest
      else candidates_from restricted ceilingIndex (S i) rest
  end.

Definition selectCap_mapped (restricted : list RestrictedLevel.t) (rungs : list Level.t)
  (targetW targetH : Q) (ceilingIndex : Z) : Z :=
  let candidates := candidates_from restricted ceilingIndex 0%nat rungs in
  let position := getMaxLevelByMediaSize (map snd candidates) targetW targetH in
  match index (map fst candidates) position with
  | Some original => Z.of_nat original
  | None => -1
  end.

(** ** Sample worlds *)

Definition blankPage : Page :=
  mkPage (fun _ => DOMRect.mk 0 0 0 0 0 0) (fun _ => 0%Q) (fun _ => 0%Q) (Some 1%Q).

(** A page on which every video element is laid out [w] by [h]. *)
Definition pageOf (w h : Q) : Page :=
  mkPage (fun _ => DOMRect.mk w h 0 w 0 h) (fun _ => 0%Q) (fun _ => 0%Q) (Some 1%Q).

Definition hlsOf (ls : list Level.t) (maxLevelCapping : Z) : Hls.t :=
  Hls.mk ls true false maxLevelCapping (-1) (-1).

(** The ladder of the tie-break example. *)
Definition ladder3 : list Level.t :=
  [ Level.mk 640 360 500000; Level.mk 640 360 800000; Level.mk 1280 720 1500000 ].

(** A ladder of three distinct resolutions. *)
Definition ladderABC : list Level.t :=
  [ Level.mk 320 180 300000; Level.mk 640 360 800000; Level.mk 1280 720 1500000 ].

(** A controller with a video element attached, nothing cached. *)
Definition attached (restricted : list RestrictedLevel.t) : CapLevelController :=
  mkController POSITIVE_INFINITY (-1) (Some 0%nat) restricted None None None.

Definition worldOf (c : CapLevelController) (h : Hls.t) (p : Page) : World :=
  mkWorld c h p 1%positive [].

(** A measurement of 320 by 180 is cached; the element has since grown to
    1280 by 720. *)
Definition staleWorld : World :=
  worldOf (set_clientRect (Some (Rect.mk 320 180)) (attached []))
          (hlsOf ladderABC (-1)) (pageOf 1280 720).

(** Three levels, nothing excluded yet. *)
Definition threeLevelWorld : World :=
  worldOf (attached []) (hlsOf ladderABC (-1)) (pageOf 640 360).

(** An element laid out at 1280 by 720 plays [ladderABC]; frames were dropped
    on level 1, and the drop has been notified. *)
Definition middleExcludedWorld : World :=
  run [FPS_DROP_LEVEL_CAPPING 1]
      (worldOf (attached []) (hlsOf ladderABC (-1)) (pageOf 1280 720)).

(** [ladderABC] on an element laid out at 1280 by 720, with the explicit
    ceiling at level 1. *)
Definition ceilingWorld : World :=
  worldOf (attached []) (hlsOf ladderABC 1) (pageOf 1280 720).

(** A stream controller is registered and capping starts on an element laid
    out at 640 by 360. *)
Definition smallWindowWorld : World :=
  run [RegisterStreamController 9%nat; MANIFEST_PARSED 0 true] threeLevelWorld.

(** The tie-break ladder on an element laid out at 320 by 180 on a display
    of pixel ratio 2. *)
Definition retinaWorld : World :=
  worldOf (attached []) (hlsOf ladder3 (-1))
          (mkPage (fun _ => DOMRect.mk 320 180 0 320 0 180)
                  (fun _ => 0%Q) (fun _ => 0%Q) (Some 2%Q)).

(** The window of [smallWindowWorld] has grown to 1280 by 720. *)
Definition grownWorld : World :=
  run [HostChange (hlsOf ladderABC (-1)) (pageOf 1280 720)] smallWindowWorld.

(** Capping ran on an element of 320 by 180 with a stream controller
    registered; the surface was detached and replaced by one that is no video
    element, a new manifest started capping again, and then a video element
    laid out at 1280 by 720 was attached. *)
Definition restartedWorld : World :=
  run [RegisterStreamController 9%nat; MEDIA_ATTACHING (VideoElement 0%nat);
       MANIFEST_PARSED 0 true; MEDIA_DETACHING;
       MEDIA_ATTACHING (OtherMediaElement 1%nat); MANIFEST_PARSED 0 true;
       HostChange (hlsOf ladderABC (-1)) (pageOf 1280 720);
       MEDIA_ATTACHING (VideoElement 0%nat)]
      (newWorld (hlsOf ladderABC (-1)) (pageOf 320 180)).

(** Capping has started on an element laid out at 640 by 360, which has then
    lost its layout. *)
Definition staleGateWorld : World :=
  run [MEDIA_ATTACHING (VideoElement 0%nat); MANIFEST_PARSED 2 true;
       HostChange (hlsOf ladderABC (-1)) blankPage]
      (newWorld (hlsOf ladderABC (-1)) (pageOf 640 360)).

(** No level is known yet and the explicit ceiling is below -1. *)
Definition emptyCeilingWorld : World :=
  worldOf constructor (hlsOf [] (-2)) blankPage.

(** ** Further notions *)

(** The test of the loop of [getMaxLevelByMediaSize] at position [k] of the
    array: [levels[k]] covers the footprint and [levels[k + 1]] is missing or
    of other dimensions. *)
Definition qualifies (levels : list Level.t) (k : nat) (width height : Q) : bool :=
  match nth_error levels k with
  | Some level =>
      covers level width height && atGreatestBandwidth level (nth_error levels (S k))
  | None => false
  end.

(** A ladder with two bitrates at each of two resolutions. *)
Definition ladderTiers : list Level.t :=
  [ Level.mk 640 360 500000; Level.mk 640 360 800000;
    Level.mk 1280 720 1500000; Level.mk 1280 720 3000000 ].

(** Every level of [ladderABC] has been reported as dropping frames. *)
Definition allExcludedWorld : World :=
  run [FPS_DROP_LEVEL_CAPPING 2; FPS_DROP_LEVEL_CAPPING 1; FPS_DROP_LEVEL_CAPPING 0]
      threeLevelWorld.

(** The notifications that empty the exclusion set. *)
Definition clearsExclusions (i : Input) : bool :=
  match i with
  | MANIFEST_PARSED _ _ => true
  | MEDIA_DETACHING => true
  | _ => false
  end.

(** What [startCapping] writes to [hls.firstLevel], lines 178. *)
Definition startFirstLevel (w : World) : Z :=
  match Hls.levels (hls w) with
  | [] => -1
  | _ :: _ =>
      clampToMaxLevelCapping (Hls.maxLevelCapping (hls w))
        (selectCap (restrictedLevels (this w)) (Hls.levels (hls w))
                   (targetWidth w) (targetHeight w) (firstLevel (this w)))
  end.

(** The world in which [startCapping], with no timer armed, makes its
    immediate call of [detectPlayerSize]: lines 177-180 have run. *)
Definition armed (w : World) : World :=
  mkWorld
    (set_timer (Some (nextTimerId w))
       (set_autoLevelCapping POSITIVE_INFINITY
          (this match Hls.levels (hls w) with
                | [] => w
                | _ :: _ => measured w
                end)))
    (set_hls_firstLevel (startFirstLevel w) (hls w))
    (page w) (Pos.succ (nextTimerId w))
    (trace w ++ [SetFirstLevel (startFirstLevel w); ClearInterval None;
                 SetInterval (nextTimerId w)]).

(** The world [stopCapping] leaves. *)
Definition stopped (w : World) : World :=
  mkWorld
    (mkController POSITIVE_INFINITY (-1) (media (this w)) [] None
                  (clientRect (this w)) (streamController (this w)))
    (hls w) (page w) (nextTimerId w)
    (trace w ++ match timer (this w) with
                | Some id => [ClearInterval (Some id)]
                | None => []
                end).

(** The intervals that a trace has set and not cleared, oldest first. *)
Definition live_step (ids : list positive) (e : Effect) : list positive :=
  match e with
  | SetInterval id => ids ++ [id]
  | ClearInterval (Some id) => remove Pos.eq_dec id ids
  | _ => ids
  end.

Definition live (tr : list Effect) : list positive := fold_left live_step tr [].

Definition isNextLevelSwitch (e : Effect) : bool :=
  match e with
  | NextLevelSwitch _ => true
  | _ => false
  end.

Definition isTimerEffect (e : Effect) : bool :=
  match e with
  | SetInterval _ => true
  | ClearInterval _ => true
  | _ => false
  end.

Definition registersStreamController (i : Input) : bool :=
  match i with
  | RegisterStreamController _ => true
  | _ => false
  end.

(** The inputs under which a controller whose configuration has
    [capLevelToPlayerSize] off stays idle: the notifications, and changes of
    the host that leave the option off.  (Its timer is never armed, so no
    tick comes.) *)
Definition keepsCappingOff (i : Input) : bool :=
  match i with
  | TimerTick => false
  | HostChange h _ => negb (Hls.capLevelToPlayerSize h)
  | _ => true
  end.

(** The inputs that neither attach a surface nor call [getMaxLevel] outside
    a tick. *)
Definition keepsMeasurement (i : Input) : bool :=
  match i with
  | MEDIA_ATTACHING _ => false
  | MANIFEST_PARSED _ _ => false
  | BUFFER_CODECS _ => false
  | _ => true
  end.

(** Capping has started on an element that is not laid out yet. *)
Definition stuckWorld : World :=
  run [MEDIA_ATTACHING (VideoElement 0%nat); MANIFEST_PARSED 2 true]
      (newWorld (hlsOf ladderABC (-1)) blankPage).

(** The intervals set and not cleared are the one the [timer] field names,
    if it names one. *)
Definition TimerInvariant (w : World) : Prop :=
  live (trace w) = match timer (this w) with
                   | Some id => [id]
                   | None => []
                   end.

(** No stream controller is registered and none has been called. *)
Definition NoSwitch (w : World) : Prop :=
  streamController (this w) = None
  /\ forallb (fun e => negb (isNextLevelSwitch e)) (trace w) = true.

(** Capping is switched off, no timer is armed, and nothing has been logged
    or written to [hls] since the world [w0]. *)
Definition Idle (w0 w : World) : Prop :=
  Hls.capLevelToPlayerSize (hls w) = false
  /\ timer (this w) = None
  /\ trace w = trace w0
  /\ Hls.autoLevelCapping (hls w) = Hls.autoLevelCapping (hls w0)
  /\ Hls.firstLevel (hls w) = Hls.firstLevel (hls w0).

(** The box [r] is cached and [hls.autoLevelCapping] is [cap]. *)
Definition Cached (r : Rect.t) (cap : Z) (w : World) : Prop :=
  clientRect (this w) = Some r /\ Hls.autoLevelCapping (hls w) = cap.

(** ** The build configuration (build-config.js) *)

Module BuildConfig.
Import String.

(** [BUILD_TYPE] and [FORMAT]. *)
Inductive BUILD_TYPE : Type := full | light.
Inductive FORMAT : Type := umd | esm | iife.

Definition FORMAT_eqb (a b : FORMAT) : bool :=
  match a, b with
  | umd, umd | esm, esm | iife, iife => true
  | _, _ => false
  end.

Definition buildTypeToOutputName (type : BUILD_TYPE) : string :=
  match type with
  | full => "hls"
  | light => "hls.light"
  end.

Definition shouldBundleWorker (format : FORMAT) : bool := negb (FORMAT_eqb format esm).

Definition workerFnBanner : string := "(function __HLS_WORKER_BUNDLE__(__IN_WORKER__){".
Definition workerFnFooter : string := "})(false);".

(** The plugins of a configuration, by what creates them. *)
Inductive Plugin : Type :=
| nodeResolve
| commonjs
| replaceConstants (type : BUILD_TYPE)
| aliasTransmuxerWorker
| aliasLightDist
| buildBabelEsm
| buildBabelLegacyBrowsers
| terser
| istanbul.

(** The fields of [output] that depend on the arguments. *)
Record RollupOutput : Type := mkOutput {
  file : string;
  format : FORMAT;
  banner : option string;
  footer : option string;
  sourcemap : bool;
  sourcemapFile : string
}.

Record RollupConfig : Type := mkConfig {
  output : RollupOutput;
  plugins : list Plugin
}.

(** A string used as a condition: [null] and the empty string are falsy. *)
Definition truthyString (s : option string) : bool :=
  match s with
  | Some EmptyString => false
  | Some _ => true
  | None => false
  end.

(** [buildRollupConfig({ type, minified, format, includeCoverage,
    outputFile })]. *)
Definition buildRollupConfig (type : BUILD_TYPE) (minified : bool) (fmt : FORMAT)
  (includeCoverage : bool) (outputFile : option string) : RollupConfig :=
  let outputName := buildTypeToOutputName type in
  let extension := (if FORMAT_eqb fmt esm then "mjs" else "js")%string in
  mkConfig
    (mkOutput
       (if truthyString outputFile
        then match outputFile with Some f => f | None => EmptyString end
        else if minified
             then ("./dist/" ++ outputName ++ ".min." ++ extension)%string
             else ("./dist/" ++ outputName ++ "." ++ extension)%string)
       fmt
       (if shouldBundleWorker fmt then Some workerFnBanner else None)
       (if shouldBundleWorker fmt then Some workerFnFooter else None)
       (negb minified)
       (if minified
        then (outputName ++ "." ++ extension ++ ".min.map")%string
        else (outputName ++ "." ++ extension ++ ".map")%string))
    ([nodeResolve; commonjs]
     ++ [replaceConstants type]
     ++ (if negb (shouldBundleWorker fmt) then [aliasTransmuxerWorker] else [])
     ++ (match type with light => [aliasLightDist] | full => [] end)
     ++ (if FORMAT_eqb fmt esm then [buildBabelEsm] else [buildBabelLegacyBrowsers])
     ++ (if minified then [terser] else [])
     ++ (if includeCoverage then [istanbul] else []))%list.

Definition Plugin_eqb (a b : Plugin) : bool :=
  match a, b with
  | nodeResolve, nodeResolve | commonjs, commonjs
  | aliasTransmuxerWorker, aliasTransmuxerWorker | aliasLightDist, aliasLightDist
  | buildBabelEsm, buildBabelEsm | buildBabelLegacyBrowsers, buildBabelLegacyBrowsers
  | terser, terser | istanbul, istanbul => true
  | replaceConstants _, replaceConstants _ => true
  | _, _ => false
  end.

End BuildConfig.

(** * Properties *)

(** ** Equations of the measuring methods *)

Lemma getDimensions_cached (w : World) (r : Rect.t) :
  clientRect (this w) = Some r -> getDimensions w = Return r w.
Proof.
  intros H. unfold getDimensions, bind, read. now rewrite H.
Qed.

Lemma getDimensions_fresh (w : World) :
  clientRect (this w) = None ->
  getDimensions w = Return (boundsRect (page w) (media (this w))) (measured w).
Proof.
  intros H. unfold getDimensions, bind, read. now rewrite H.
Qed.

Lemma contentScaleFactor_eq (w : World) :
  contentScaleFactor w = Return (pixelRatio (hls w) (page w)) w.
Proof. reflexivity. Qed.

Lemma mediaWidth_fresh (w : World) :
  clientRect (this w) = None ->
  mediaWidth w = Return (targetWidth w) (measured w).
Proof.
  intros H. unfold mediaWidth, bind. now rewrite (getDimensions_fresh w H).
Qed.

Lemma mediaHeight_fresh (w : World) :
  clientRect (this w) = None ->
  mediaHeight w = Return (targetHeight w) (measured w).
Proof.
  intros H. unfold mediaHeight, bind. now rewrite (getDimensions_fresh w H).
Qed.

Lemma mediaWidth_cached (w : World) (r : Rect.t) :
  clientRect (this w) = Some r ->
  mediaWidth w = Return (Rect.width r * pixelRatio (hls w) (page w))%Q w.
Proof.
  intros H. unfold mediaWidth, bind. now rewrite (getDimensions_cached w r H).
Qed.

Lemma mediaHeight_cached (w : World) (r : Rect.t) :
  clientRect (this w) = Some r ->
  mediaHeight w = Return (Rect.height r * pixelRatio (hls w) (page w))%Q w.
Proof.
  intros H. unfold mediaHeight, bind. now rewrite (getDimensions_cached w r H).
Qed.

(** [getMaxLevel] in closed form: nothing happens on an empty level list;
    otherwise the cache is refreshed and the selection is clamped. *)
Lemma getMaxLevel_eq (capLevelIndex : Z) (w : World) :
  getMaxLevel capLevelIndex w =
  match Hls.levels (hls w) with
  | [] => Return (-1) w
  | _ :: _ =>
      Return
        (clampToMaxLevelCapping (Hls.maxLevelCapping (hls w))
           (selectCap (restrictedLevels (this w)) (Hls.levels (hls w))
                      (targetWidth w) (targetHeight w) capLevelIndex))
        (measured w)
  end.
Proof.
  unfold getMaxLevel, bind, read.
  destruct (Hls.levels (hls w)) as [|l ls] eqn:E; [reflexivity|].
  unfold update_this at 1.
  rewrite mediaWidth_fresh by reflexivity.
  rewrite mediaHeight_cached with (r := boundsRect (page w) (media (this w)))
    by reflexivity.
  unfold clampToMaxLevelCapping, selectCap. cbn.
  destruct (negb (Hls.maxLevelCapping (hls w) =? -1)); reflexivity.
Qed.

(** ** The selector and the controller state *)

(** C3, as the code has it: [getMaxLevel] is not free of side effects.  It
    returns normally, writes nothing to [hls], calls neither the stream
    controller nor the timer functions, and changes no field of the
    controller other than the cached measurement [clientRect]; on a level
    list that is not empty it discards what was cached and caches the box it
    measures anew on the page (it calls [getBoundingClientRect()] and reads
    the pixel ratio for that), on an empty one it measures nothing. *)
Theorem getMaxLevel_touches_only_clientRect (capLevelIndex : Z) (w : World) :
  exists r w',
    getMaxLevel capLevelIndex w = Return r w'
    /\ hls w' = hls w /\ page w' = page w
    /\ nextTimerId w' = nextTimerId w /\ trace w' = trace w
    /\ autoLevelCapping (this w') = autoLevelCapping (this w)
    /\ firstLevel (this w') = firstLevel (this w)
    /\ media (this w') = media (this w)
    /\ restrictedLevels (this w') = restrictedLevels (this w)
    /\ timer (this w') = timer (this w)
    /\ streamController (this w') = streamController (this w)
    /\ clientRect (this w') =
         match Hls.levels (hls w) with
         | [] => clientRect (this w)
         | _ :: _ => Some (boundsRect (page w) (media (this w)))
         end.
Proof.
  rewrite getMaxLevel_eq.
  destruct (Hls.levels (hls w)); do 2 eexists; repeat split; reflexivity.
Qed.

(** C3, counterexample: with a measurement of 320x180 cached and the element
    now laid out at 1280x720, [getMaxLevel 2] leaves 1280x720 in the cache:
    the selector does have a side effect on the controller state. *)
Lemma getMaxLevel_replaces_cached_measurement :
  clientRect (this staleWorld) = Some (Rect.mk 320 180)
  /\ clientRect (this (world_of (getMaxLevel 2 staleWorld))) = Some (Rect.mk 1280 720)
  /\ this (world_of (getMaxLevel 2 staleWorld)) <> this staleWorld.
Proof.
  split; [reflexivity|]. split; [reflexivity|].
  intros H. apply (f_equal clientRect) in H. discriminate H.
Qed.

(** ** The explicit ceiling *)

(** C7, as the code has it: on a non-empty level list [getMaxLevel] returns
    the size-computed cap when [hls.maxLevelCapping] is -1 and the minimum of
    the two otherwise; on an empty level list it returns -1 whatever the
    ceiling.  Hence the clamp holds on every level list as long as the
    ceiling is not below -1. *)
Theorem getMaxLevel_explicit_ceiling (capLevelIndex : Z) (w : World) :
  let sizeCap :=
    selectCap (restrictedLevels (this w)) (Hls.levels (hls w))
              (targetWidth w) (targetHeight w) capLevelIndex in
  let clamped :=
    if Hls.maxLevelCapping (hls w) =? -1
    then sizeCap
    else Z.min (Hls.maxLevelCapping (hls w)) sizeCap in
  value_of (getMaxLevel capLevelIndex w) =
    Some match Hls.levels (hls w) with
         | [] => -1
         | _ :: _ => clamped
         end
  /\ (-1 <= Hls.maxLevelCapping (hls w) ->
      value_of (getMaxLevel capLevelIndex w) = Some clamped).
Proof.
  intros sizeCap clamped. rewrite getMaxLevel_eq. subst clamped sizeCap.
  destruct (Hls.levels (hls w)) as [|l ls].
  - split; [reflexivity|]. intros H. cbn. f_equal.
    destruct (Hls.maxLevelCapping (hls w) =? -1); [reflexivity | lia].
  - unfold clampToMaxLevelCapping. cbn.
    destruct (Hls.maxLevelCapping (hls w) =? -1); split; reflexivity.
Qed.

Lemma getMaxLevel_explicit_ceiling_witness :
  value_of (getMaxLevel 2 ceilingWorld) = Some 1.
Proof.
  destruct (getMaxLevel_explicit_ceiling 2 ceilingWorld) as [_ H].
  apply H. cbn. lia.
Defined.

(** C7, counterexample: with no level and [hls.maxLevelCapping = -2] the
    ceiling is set, the size-computed cap is -1 and their minimum is -2, but
    [getMaxLevel] returns -1. *)
Lemma getMaxLevel_empty_ignores_ceiling :
  let w := emptyCeilingWorld in
  let sizeCap :=
    selectCap (restrictedLevels (this w)) (Hls.levels (hls w))
              (targetWidth w) (targetHeight w) 0 in
  Hls.maxLevelCapping (hls w) <> -1
  /\ value_of (getMaxLevel 0 w) = Some (-1)
  /\ Z.min (Hls.maxLevelCapping (hls w)) sizeCap = -2
  /\ value_of (getMaxLevel 0 w) <> Some (Z.min (Hls.maxLevelCapping (hls w)) sizeCap).
Proof.
  cbv zeta. repeat split; try reflexivity; vm_compute; discriminate.
Qed.

(** ** The scan of [getMaxLevelByMediaSize] *)

Lemma covers_iff (l : Level.t) (tw th : Q) :
  covers l tw th = true <-> Covers l tw th.
Proof.
  unfold covers, Covers, Qgeb.
  rewrite orb_true_iff, !Qle_bool_iff. reflexivity.
Qed.

Lemma covers_dims_le (a b : Level.t) (tw th : Q) :
  dims_le a b -> Covers a tw th -> Covers b tw th.
Proof.
  intros [Hw Hh] [H|H]; [left|right].
  - apply Qle_trans with (1 := H). now rewrite <- Zle_Qle.
  - apply Qle_trans with (1 := H). now rewrite <- Zle_Qle.
Qed.

(** Where the loop breaks, the level covers the footprint and is the last of
    its resolution. *)
Lemma firstMatch_Some (ls : list Level.t) (tw th : Q) :
  forall i j,
    firstMatch ls i tw th = Some j ->
    (i <= j < i + length ls)%nat
    /\ exists l, nth_error ls (j - i) = Some l
                 /\ covers l tw th = true
                 /\ atGreatestBandwidth l (nth_error ls (S (j - i))) = true.
Proof.
  induction ls as [|l rest IH]; intros i j H; cbn in H; [discriminate|].
  destruct (covers l tw th && atGreatestBandwidth l (hd_error rest)) eqn:E.
  - injection H as <-. apply andb_true_iff in E as [Ec Eg].
    split; [cbn; lia|]. exists l. rewrite Nat.sub_diag. cbn.
    repeat split; trivial; now destruct rest.
  - apply IH in H as [Hr [l' [Hn Hc]]]. split; [cbn; lia|].
    exists l'. replace (j - i)%nat with (S (j - S i)) by lia. now cbn.
Qed.

(** No position before the break qualifies. *)
Lemma firstMatch_first (ls : list Level.t) (tw th : Q) :
  forall i j,
    firstMatch ls i tw th = Some j ->
    forall k l, (k < j - i)%nat -> nth_error ls k = Some l ->
      covers l tw th && atGreatestBandwidth l (nth_error ls (S k)) = false.
Proof.
  induction ls as [|x rest IH]; intros i j H k l Hk Hn; cbn in H; [discriminate|].
  destruct (covers x tw th && atGreatestBandwidth x (hd_error rest)) eqn:E.
  - injection H as <-. lia.
  - destruct k as [|k]; cbn in Hn |- *.
    + injection Hn as <-. now destruct rest.
    + apply (IH _ _ H k l); [|exact Hn].
      pose proof (firstMatch_Some _ _ _ _ _ H) as [Hr _]. lia.
Qed.

Lemma firstMatch_None_uncovered (ls : list Level.t) (tw th : Q) :
  (forall l, In l ls -> ~ Covers l tw th) ->
  forall i, firstMatch ls i tw th = None.
Proof.
  induction ls as [|l rest IH]; intros H i; cbn; [reflexivity|].
  destruct (covers l tw th) eqn:E.
  - exfalso. apply (H l); [now left | now apply covers_iff].
  - cbn. apply IH. intros l' Hin. apply H. now right.
Qed.

(** On a list whose dimension pairs do not decrease, the loop breaks as soon
    as some level covers the footprint: the last level of the list covers it
    too and has no successor. *)
Lemma firstMatch_sorted (ls : list Level.t) (tw th : Q) :
  Sorted dims_le ls ->
  (exists l, In l ls /\ Covers l tw th) ->
  forall i, exists j, firstMatch ls i tw th = Some j.
Proof.
  induction ls as [|l rest IH]; intros Hs [c [Hin Hc]] i; [contradiction|].
  cbn. destruct (covers l tw th && atGreatestBandwidth l (hd_error rest)) eqn:E.
  - now exists i.
  - apply Sorted_inv in Hs as [Hs Hd].
    apply IH; [exact Hs|].
    destruct Hin as [<-|Hin]; [|now exists c].
    apply covers_iff in Hc. rewrite Hc in E. cbn in E.
    destruct rest as [|r rest']; [discriminate|].
    exists r. split; [now left|].
    apply HdRel_inv in Hd.
    apply covers_dims_le with (1 := Hd). now apply covers_iff.
Qed.

(** The filter of [getMaxLevel] keeps every level when nothing is excluded
    and the ceiling is at or above the last index. *)
Lemma filter_from_all (capLevelIndex : Z) (ls : list Level.t) :
  forall i,
    Z.of_nat (i + length ls) - 1 <= capLevelIndex ->
    filter_from (isValidLevel [] capLevelIndex) i ls = ls.
Proof.
  induction ls as [|l rest IH]; intros i H; cbn; [reflexivity|].
  cbn in H. unfold isValidLevel at 1. cbn.
  replace (Z.of_nat i <=? capLevelIndex) with true by (symmetry; apply Z.leb_le; lia).
  f_equal. apply IH. lia.
Qed.

Lemma index_of_nat {A : Type} (a : list A) (n : nat) :
  index a (Z.of_nat n) = nth_error a n.
Proof.
  unfold index. replace (Z.of_nat n <? 0) with false by (symmetry; apply Z.ltb_ge; lia).
  now rewrite Nat2Z.id.
Qed.

(** [getMaxLevelByMediaSize] on a sorted list. *)
Lemma getMaxLevelByMediaSize_sorted (ls : list Level.t) (tw th : Q) :
  Sorted dims_le ls ->
  ((exists l, In l ls /\ Covers l tw th) ->
   exists l, index ls (getMaxLevelByMediaSize ls tw th) = Some l /\ Covers l tw th)
  /\ ((forall l, In l ls -> ~ Covers l tw th) ->
      getMaxLevelByMediaSize ls tw th = length_Z ls - 1).
Proof.
  intros Hs. split.
  - intros Hex. destruct ls as [|x rest]; [now destruct Hex as [? [[] _]]|].
    unfold getMaxLevelByMediaSize.
    destruct (firstMatch_sorted _ tw th Hs Hex 0%nat) as [j Hj]. rewrite Hj.
    apply firstMatch_Some in Hj as [_ [l [Hn [Hc _]]]].
    rewrite Nat.sub_0_r in Hn. exists l. rewrite index_of_nat.
    split; [exact Hn | now apply covers_iff].
  - intros Hno. destruct ls as [|x rest]; [reflexivity|].
    unfold getMaxLevelByMediaSize.
    now rewrite (firstMatch_None_uncovered _ tw th Hno).
Qed.

(** ** Coverage and tie-break *)

(** With nothing excluded and the ceiling at or above the last index, the
    selector scans the whole list. *)
Lemma selectCap_unfiltered (rungs : list Level.t) (tw th : Q) (ceilingIndex : Z) :
  length_Z rungs - 1 <= ceilingIndex ->
  selectCap [] rungs tw th ceilingIndex = getMaxLevelByMediaSize rungs tw th.
Proof.
  intros Hc. unfold selectCap, Array_filter.
  now rewrite filter_from_all by exact Hc.
Qed.

(** C4: on a list whose dimension pairs do not decrease, with nothing
    excluded and the ceiling at or above the last index, the selector returns
    the index of a level that covers the target footprint in width or in
    height whenever some level does, and the last index of the list when
    none does. *)
Theorem selectCap_monotonic_coverage
  (rungs : list Level.t) (targetW targetH : Q) (ceilingIndex : Z) :
  Sorted dims_le rungs ->
  length_Z rungs - 1 <= ceilingIndex ->
  ((exists l, In l rungs /\ Covers l targetW targetH) ->
   exists l, index rungs (selectCap [] rungs targetW targetH ceilingIndex) = Some l
             /\ Covers l targetW targetH)
  /\ ((forall l, In l rungs -> ~ Covers l targetW targetH) ->
      selectCap [] rungs targetW targetH ceilingIndex = length_Z rungs - 1).
Proof.
  intros Hs Hc. rewrite selectCap_unfiltered by exact Hc.
  now apply getMaxLevelByMediaSize_sorted.
Qed.

Lemma selectCap_monotonic_coverage_witness :
  exists l, index ladderABC (selectCap [] ladderABC 640 360 2) = Some l
            /\ Covers l 640 360.
Proof.
  apply (selectCap_monotonic_coverage ladderABC 640 360 2).
  - unfold ladderABC, dims_le. repeat constructor; cbn; lia.
  - vm_compute. discriminate.
  - exists (Level.mk 640 360 800000). split.
    + right. now left.
    + left. cbn. apply Qle_refl.
Defined.

(** The same through the controller: what [getMaxLevel] returns when nothing
    is excluded and no explicit ceiling is set. *)
Corollary getMaxLevel_monotonic_coverage (w : World) (capLevelIndex : Z) :
  restrictedLevels (this w) = [] ->
  Hls.maxLevelCapping (hls w) = -1 ->
  Sorted dims_le (Hls.levels (hls w)) ->
  length_Z (Hls.levels (hls w)) - 1 <= capLevelIndex ->
  exists r,
    value_of (getMaxLevel capLevelIndex w) = Some r
    /\ ((exists l, In l (Hls.levels (hls w)) /\ Covers l (targetWidth w) (targetHeight w)) ->
        exists l, index (Hls.levels (hls w)) r = Some l
                  /\ Covers l (targetWidth w) (targetHeight w))
    /\ ((forall l, In l (Hls.levels (hls w)) -> ~ Covers l (targetWidth w) (targetHeight w)) ->
        r = length_Z (Hls.levels (hls w)) - 1).
Proof.
  intros Hr Hm Hs Hc.
  pose proof (getMaxLevelByMediaSize_sorted _ (targetWidth w) (targetHeight w) Hs)
    as [H1 H2].
  rewrite <- (selectCap_unfiltered _ _ _ _ Hc) in H1, H2.
  rewrite getMaxLevel_eq, Hr, Hm. unfold clampToMaxLevelCapping. cbn [Z.eqb negb].
  destruct (Hls.levels (hls w)) as [|x rest] eqn:E.
  - exists (-1). split; [reflexivity|]. split; [intros [? [[] _]] | reflexivity].
  - eexists. split; [reflexivity|]. split; assumption.
Qed.

(** The scan only compares the footprint with integers, so footprints that
    are equal as rationals select the same level. *)
Lemma covers_Qeq (l : Level.t) (tw th tw' th' : Q) :
  (tw == tw')%Q -> (th == th')%Q -> covers l tw th = covers l tw' th'.
Proof.
  intros Hw Hh. unfold covers, Qgeb.
  f_equal; apply eq_true_iff_eq; rewrite !Qle_bool_iff.
  - now rewrite Hw.
  - now rewrite Hh.
Qed.

Lemma firstMatch_Qeq (ls : list Level.t) (tw th tw' th' : Q) :
  (tw == tw')%Q -> (th == th')%Q ->
  forall i, firstMatch ls i tw th = firstMatch ls i tw' th'.
Proof.
  intros Hw Hh. induction ls as [|l rest IH]; intros i; cbn; [reflexivity|].
  now rewrite (covers_Qeq l _ _ _ _ Hw Hh), IH.
Qed.

Lemma selectCap_Qeq (restricted : list RestrictedLevel.t) (rungs : list Level.t)
  (tw th tw' th' : Q) (ceilingIndex : Z) :
  (tw == tw')%Q -> (th == th')%Q ->
  selectCap restricted rungs tw th ceilingIndex
  = selectCap restricted rungs tw' th' ceilingIndex.
Proof.
  intros Hw Hh. unfold selectCap, getMaxLevelByMediaSize.
  now rewrite (firstMatch_Qeq _ _ _ _ _ Hw Hh).
Qed.

(** C5: on the ladder 640x360 at 500 kbps, 640x360 at 800 kbps, 1280x720 at
    1500 kbps, with nothing excluded, ceiling 2 and a target footprint of
    640x360, the selector returns index 1, the 800 kbps level; so does
    [getMaxLevel 2] in every controller state that measures that footprint
    on that ladder with no explicit ceiling. *)
Theorem selectCap_greatest_bandwidth_tie_break (w : World) :
  Hls.levels (hls w) = ladder3 ->
  restrictedLevels (this w) = [] ->
  Hls.maxLevelCapping (hls w) = -1 ->
  (targetWidth w == 640)%Q ->
  (targetHeight w == 360)%Q ->
  selectCap [] ladder3 640 360 2 = 1
  /\ value_of (getMaxLevel 2 w) = Some 1.
Proof.
  intros Hl Hr Hm Hw Hh. split; [reflexivity|].
  rewrite getMaxLevel_eq, Hl, Hr, Hm. unfold ladder3 at 1. cbn [value_of].
  now rewrite (selectCap_Qeq _ _ _ _ _ _ _ Hw Hh).
Qed.

Lemma selectCap_greatest_bandwidth_tie_break_witness :
  selectCap [] ladder3 640 360 2 = 1
  /\ value_of (getMaxLevel 2 retinaWorld) = Some 1.
Proof.
  apply (selectCap_greatest_bandwidth_tie_break retinaWorld);
    reflexivity.
Defined.

(** ** Position among the candidates and index in the level list *)

Lemma candidates_levels (restricted : list RestrictedLevel.t) (ceilingIndex : Z)
  (rungs : list Level.t) :
  forall i,
    map snd (candidates_from restricted ceilingIndex i rungs)
    = filter_from (isValidLevel restricted ceilingIndex) i rungs.
Proof.
  induction rungs as [|x rest IH]; intros i; cbn; [reflexivity|].
  destruct (isValidLevel restricted ceilingIndex x i); cbn; now rewrite IH.
Qed.

Lemma candidates_above_ceiling (restricted : list RestrictedLevel.t) (ceilingIndex : Z)
  (rungs : list Level.t) :
  forall i, ceilingIndex < Z.of_nat i ->
    candidates_from restricted ceilingIndex i rungs = [].
Proof.
  induction rungs as [|x rest IH]; intros i H; cbn; [reflexivity|].
  unfold isValidLevel.
  replace (Z.of_nat i <=? ceilingIndex) with false by (symmetry; apply Z.leb_gt; lia).
  rewrite andb_false_r. apply IH. lia.
Qed.

(** When no level of the list is excluded, the candidates are a prefix of the
    list, so each sits at its own index. *)
Lemma candidates_prefix (restricted : list RestrictedLevel.t) (ceilingIndex : Z)
  (rungs : list Level.t) :
  (forall l, In l rungs -> levelAllowed restricted l = true) ->
  forall i,
    map fst (candidates_from restricted ceilingIndex i rungs)
    = seq i (length (candidates_from restricted ceilingIndex i rungs)).
Proof.
  induction rungs as [|x rest IH]; intros Hall i; cbn; [reflexivity|].
  unfold isValidLevel at 1 2. rewrite (Hall x) by now left. cbn [andb].
  destruct (Z.of_nat i <=? ceilingIndex) eqn:E.
  - cbn. f_equal. apply IH. intros l Hl. apply Hall. now right.
  - apply Z.leb_gt in E. rewrite candidates_above_ceiling by lia. reflexivity.
Qed.

Lemma getMaxLevelByMediaSize_range (ls : list Level.t) (tw th : Q) :
  -1 <= getMaxLevelByMediaSize ls tw th < length_Z ls
  /\ (ls <> [] -> 0 <= getMaxLevelByMediaSize ls tw th).
Proof.
  unfold getMaxLevelByMediaSize, length_Z.
  destruct ls as [|x rest]; [cbn; split; [lia | congruence]|].
  destruct (firstMatch (x :: rest) 0 tw th) as [j|] eqn:E.
  - apply firstMatch_Some in E as [Hr _]. cbn in *. lia.
  - cbn [length]. lia.
Qed.

(** Where the code and the specification's selector agree: as long as no
    level of the list is excluded, the position among the candidates is the
    index in the list. *)
Lemma selectCap_mapped_when_none_excluded
  (restricted : list RestrictedLevel.t) (rungs : list Level.t)
  (tw th : Q) (ceilingIndex : Z) :
  (forall l, In l rungs -> levelAllowed restricted l = true) ->
  selectCap restricted rungs tw th ceilingIndex
  = selectCap_mapped restricted rungs tw th ceilingIndex.
Proof.
  intros Hall. unfold selectCap_mapped, selectCap, Array_filter.
  rewrite candidates_levels, (candidates_prefix _ _ _ Hall).
  rewrite <- (length_map snd), candidates_levels.
  set (valid := filter_from (isValidLevel restricted ceilingIndex) 0 rungs).
  pose proof (getMaxLevelByMediaSize_range valid tw th) as [Hr Hp].
  destruct valid as [|v vs] eqn:E; [reflexivity|].
  specialize (Hp ltac:(discriminate)).
  set (r := getMaxLevelByMediaSize (v :: vs) tw th) in *.
  unfold length_Z in Hr.
  rewrite <- (Z2Nat.id r) at 2 by lia. rewrite index_of_nat.
  assert (Hlt : (Z.to_nat r < length (v :: vs))%nat) by lia.
  rewrite (nth_error_nth' _ 0%nat) by now rewrite length_seq.
  rewrite seq_nth by exact Hlt. cbn [Nat.add]. now rewrite Z2Nat.id by lia.
Qed.

(** C1, at the failing input: on a ladder of three levels, level 1 has been
    excluded, the footprint is 1280x720 and the ceiling is 2.  The candidates
    are the levels of index 0 and 2; the first that qualifies is the one of
    index 2 in the level list.  [getMaxLevel] returns 1, its position among
    the candidates, and the next tick publishes 1 as the cap; in the level
    list that is the excluded 640x360 level, which does not cover the
    footprint. *)
Theorem getMaxLevel_returns_position_among_candidates :
  let w := middleExcludedWorld in
  let restricted := restrictedLevels (this w) in
  let rungs := Hls.levels (hls w) in
  restricted = [RestrictedLevel.mk 640 360 800000]
  /\ candidates_from restricted 2 0 rungs
     = [(0%nat, Level.mk 320 180 300000); (2%nat, Level.mk 1280 720 1500000)]
  /\ selectCap_mapped restricted rungs (targetWidth w) (targetHeight w) 2 = 2
  /\ value_of (getMaxLevel 2 w) = Some 1
  /\ Hls.autoLevelCapping (hls (world_of (detectPlayerSize w))) = 1
  /\ index rungs 1 = Some (Level.mk 640 360 800000)
  /\ levelAllowed restricted (Level.mk 640 360 800000) = false
  /\ covers (Level.mk 640 360 800000) (targetWidth w) (targetHeight w) = false.
Proof.
  cbv zeta. repeat split; reflexivity.
Qed.

(** ** Recording an exclusion *)

Lemma isLevelAllowed_defined (l : Level.t) (w : World) :
  isLevelAllowed (Some l) w = Return (levelAllowed (restrictedLevels (this w)) l) w.
Proof. reflexivity. Qed.

(** [onFpsDropLevelCapping] in closed form. *)
Lemma onFpsDropLevelCapping_eq (droppedLevel : Z) (w : World) :
  onFpsDropLevelCapping droppedLevel w =
  match index (Hls.levels (hls w)) droppedLevel with
  | None => Throw TypeError w
  | Some l =>
      if levelAllowed (restrictedLevels (this w)) l
      then Return tt
             (mkWorld (set_restrictedLevels
                         (restrictedLevels (this w) ++ [restrictedOf l]) (this w))
                      (hls w) (page w) (nextTimerId w) (trace w))
      else Return tt w
  end.
Proof.
  unfold onFpsDropLevelCapping, bind, read.
  destruct (index (Hls.levels (hls w)) droppedLevel) as [l|] eqn:E.
  - rewrite isLevelAllowed_defined.
    now destruct (levelAllowed (restrictedLevels (this w)) l).
  - unfold isLevelAllowed, bind, read.
    destruct (restrictedLevels (this w)); reflexivity.
Qed.

(** C2, as the code has it: when [data.droppedLevel] is out of range of
    [hls.levels], [onFpsDropLevelCapping] throws a [TypeError] (it reads a
    field of [undefined]) and leaves the controller, the exclusion set
    included, as it was. *)
Theorem onFpsDropLevelCapping_out_of_range (w : World) (droppedLevel : Z) :
  index (Hls.levels (hls w)) droppedLevel = None ->
  onFpsDropLevelCapping droppedLevel w = Throw TypeError w.
Proof.
  intros H. now rewrite onFpsDropLevelCapping_eq, H.
Qed.

Lemma onFpsDropLevelCapping_out_of_range_witness :
  onFpsDropLevelCapping 3 threeLevelWorld = Throw TypeError threeLevelWorld.
Proof.
  apply (onFpsDropLevelCapping_out_of_range threeLevelWorld 3). reflexivity.
Defined.

(** C2, counterexample: index 3 is out of range of a list of three levels,
    and the handler does not complete: it throws. *)
Lemma onFpsDropLevelCapping_throws_out_of_range :
  index (Hls.levels (hls threeLevelWorld)) 3 = None
  /\ onFpsDropLevelCapping 3 threeLevelWorld = Throw TypeError threeLevelWorld
  /\ forall w', onFpsDropLevelCapping 3 threeLevelWorld <> Return tt w'.
Proof.
  split; [reflexivity|]. split; [reflexivity|]. intros w' H. discriminate H.
Qed.

(** ** The timer tick *)

Lemma getDimensions_eq (w : World) :
  getDimensions w = Return (dimensions w) (remembered w).
Proof.
  destruct w as [[a f m r t c s] h p n tr].
  destruct c as [box|]; reflexivity.
Qed.

Lemma mediaWidth_eq (w : World) :
  mediaWidth w = Return (gateWidth w) (remembered w).
Proof. unfold mediaWidth, bind. now rewrite getDimensions_eq. Qed.

Lemma mediaHeight_eq (w : World) :
  mediaHeight w = Return (gateHeight w) (remembered w).
Proof. unfold mediaHeight, bind. now rewrite getDimensions_eq. Qed.

(** [detectPlayerSize] in closed form. *)
Lemma detectPlayerSize_eq (w : World) :
  detectPlayerSize w =
  match media (this w) with
  | None => Return tt w
  | Some _ =>
      if Qgtb (gateHeight w) 0 && Qgtb (gateWidth w) 0
      then match Hls.levels (hls w) with
           | [] => Return tt (remembered w)
           | _ :: _ => Return tt (afterTick w)
           end
      else Return tt (remembered w)
  end.
Proof.
  unfold detectPlayerSize.
  unfold bind at 1. unfold read at 1.
  destruct (media (this w)) as [v|] eqn:Em; [|reflexivity].
  unfold bind at 1. unfold bind at 1. rewrite mediaHeight_eq.
  destruct (Qgtb (gateHeight w) 0) eqn:Eh; [|reflexivity].
  unfold bind at 1. rewrite mediaWidth_eq.
  change (gateWidth (remembered w)) with (gateWidth w).
  unfold ret at 1.
  destruct (Qgtb (gateWidth w) 0) eqn:Ew; [|reflexivity].
  cbn [andb]. unfold bind at 1. unfold read at 1.
  change (hls (remembered (remembered w))) with (hls w).
  destruct (Hls.levels (hls w)) as [|l ls] eqn:El; [reflexivity|].
  unfold bind at 1. rewrite getMaxLevel_eq.
  change (hls (remembered (remembered w))) with (hls w). rewrite El.
  unfold bind, read, update_hls, update_this, emit, ret. cbn.
  unfold afterTick, tickEffects, tickCap. rewrite El. cbn.
  destruct (gt_number _ _); [destruct (streamController (this w))|];
    cbn; rewrite <- ?app_assoc; reflexivity.
Qed.

Lemma Qgtb_lt_iff (x : Q) : Qgtb x 0 = true <-> (0 < x)%Q.
Proof.
  unfold Qgtb. rewrite negb_true_iff, <- not_true_iff_false, Qle_bool_iff.
  split; [apply Qnot_le_lt | apply Qlt_not_le].
Qed.

(** C8, as the code has it.  A tick never throws.  It computes a cap exactly
    when a surface is attached, the height and the width it reads are
    positive and the level list is not empty; otherwise it logs nothing and
    leaves [hls] and the remembered cap as they were.  When it computes a
    cap, it publishes it in [hls.autoLevelCapping], remembers it, and calls
    [nextLevelSwitch] exactly when that cap is greater than the cap the
    controller remembered ([this.autoLevelCapping]: what its previous
    evaluation published, or positive infinity since [startCapping] or
    [stopCapping] ran) and a stream controller is registered; the call comes
    after the publication. *)
Theorem detectPlayerSize_switch_iff_cap_rises (w : World) (height width : Q) :
  value_of (mediaHeight w) = Some height ->
  value_of (mediaWidth w) = Some width ->
  exists w' new,
    detectPlayerSize w = Return tt w'
    /\ trace w' = trace w ++ new
    /\ ((media (this w) <> None /\ (0 < height)%Q /\ (0 < width)%Q
         /\ Hls.levels (hls w) <> [] ->
         exists cap,
           value_of (getMaxLevel (length_Z (Hls.levels (hls w)) - 1) w) = Some cap
           /\ Hls.autoLevelCapping (hls w') = cap
           /\ autoLevelCapping (this w') = Finite cap
           /\ ((gt_number cap (autoLevelCapping (this w)) = true
                /\ exists s, streamController (this w) = Some s
                             /\ new = [SetAutoLevelCapping cap; NextLevelSwitch s])
               \/ ((gt_number cap (autoLevelCapping (this w)) = false
                    \/ streamController (this w) = None)
                   /\ new = [SetAutoLevelCapping cap])))
        /\ (~ (media (this w) <> None /\ (0 < height)%Q /\ (0 < width)%Q
               /\ Hls.levels (hls w) <> []) ->
            new = [] /\ hls w' = hls w
            /\ autoLevelCapping (this w') = autoLevelCapping (this w))).
Proof.
  intros Hh Hw. rewrite mediaHeight_eq in Hh. rewrite mediaWidth_eq in Hw.
  injection Hh as <-. injection Hw as <-.
  rewrite detectPlayerSize_eq.
  assert (Hskip : forall w' : World,
            trace w' = trace w -> hls w' = hls w ->
            autoLevelCapping (this w') = autoLevelCapping (this w) ->
            ~ (media (this w) <> None /\ (0 < gateHeight w)%Q /\ (0 < gateWidth w)%Q
               /\ Hls.levels (hls w) <> []) ->
            exists w'' new,
              Return tt w' = Return tt w''
              /\ trace w'' = trace w ++ new
              /\ ((media (this w) <> None /\ (0 < gateHeight w)%Q
                   /\ (0 < gateWidth w)%Q /\ Hls.levels (hls w) <> [] ->
                   exists cap,
                     value_of (getMaxLevel (length_Z (Hls.levels (hls w)) - 1) w)
                     = Some cap
                     /\ Hls.autoLevelCapping (hls w'') = cap
                     /\ autoLevelCapping (this w'') = Finite cap
                     /\ ((gt_number cap (autoLevelCapping (this w)) = true
                          /\ exists s, streamController (this w) = Some s
                               /\ new = [SetAutoLevelCapping cap; NextLevelSwitch s])
                         \/ ((gt_number cap (autoLevelCapping (this w)) = false
                              \/ streamController (this w) = None)
                             /\ new = [SetAutoLevelCapping cap])))
                  /\ (~ (media (this w) <> None /\ (0 < gateHeight w)%Q
                         /\ (0 < gateWidth w)%Q /\ Hls.levels (hls w) <> []) ->
                      new = [] /\ hls w'' = hls w
                      /\ autoLevelCapping (this w'') = autoLevelCapping (this w)))).
  { intros w' Ht Hhls Ha Hno. exists w', []. rewrite app_nil_r.
    split; [reflexivity|]. split; [exact Ht|]. split; [tauto | auto]. }
  destruct (media (this w)) as [v|] eqn:Em;
    [|apply Hskip; try reflexivity; intros [H _]; now apply H].
  destruct (Qgtb (gateHeight w) 0) eqn:Eh;
    [|apply Hskip; try reflexivity; intros [_ [H _]];
      apply Qgtb_lt_iff in H; congruence].
  destruct (Qgtb (gateWidth w) 0) eqn:Ew;
    [|apply Hskip; try reflexivity; intros [_ [_ [H _]]];
      apply Qgtb_lt_iff in H; congruence].
  cbn [andb].
  destruct (Hls.levels (hls w)) as [|l ls] eqn:El;
    [apply Hskip; try reflexivity; intros [_ [_ [_ H]]]; now apply H|].
  exists (afterTick w), (tickEffects w).
  split; [reflexivity|]. split; [reflexivity|]. split.
  - intros _. exists (tickCap w). rewrite getMaxLevel_eq, El.
    split; [unfold tickCap; now rewrite El|].
    split; [reflexivity|]. split; [reflexivity|].
    unfold tickEffects.
    destruct (gt_number (tickCap w) (autoLevelCapping (this w))).
    + destruct (streamController (this w)) as [s|].
      * left. split; [reflexivity|]. now exists s.
      * right. split; [now right | reflexivity].
    + right. split; [now left | reflexivity].
  - intros Hno. exfalso. apply Hno. repeat split.
    + discriminate.
    + now apply Qgtb_lt_iff.
    + now apply Qgtb_lt_iff.
    + discriminate.
Qed.

Lemma detectPlayerSize_switch_iff_cap_rises_witness :
  exists w' new,
    detectPlayerSize grownWorld = Return tt w'
    /\ trace w' = trace grownWorld ++ new
    /\ Hls.autoLevelCapping (hls w') = 2
    /\ new = [SetAutoLevelCapping 2; NextLevelSwitch 9%nat].
Proof.
  destruct (detectPlayerSize_switch_iff_cap_rises grownWorld 360 640)
    as [w' [new [Hd [Ht [Hev _]]]]];
    [vm_compute; reflexivity | vm_compute; reflexivity |].
  exists w', new. split; [exact Hd|]. split; [exact Ht|].
  destruct Hev as [cap [Hc [Hp [_ Hn]]]].
  - split; [vm_compute; discriminate|].
    split; [reflexivity|]. split; [reflexivity|]. vm_compute; discriminate.
  - vm_compute in Hc. injection Hc as <-. split; [exact Hp|].
    vm_compute in Hn.
    destruct Hn as [[_ [s [Hs Hn]]]|[[Hg|Hs] _]].
    + injection Hs as <-. exact Hn.
    + discriminate Hg.
    + discriminate Hs.
Defined.

(** C8, counterexample: the controller had published cap 0, capping was
    stopped and started again with no surface measurable, and a video
    element of 1280x720 has since been attached; a stream controller is
    registered and the timer is armed.  The tick publishes cap 2, greater
    than the previously published 0, and does not call [nextLevelSwitch]:
    the controller remembers positive infinity since the restart. *)
Lemma detectPlayerSize_rising_cap_without_switch :
  trace restartedWorld
  = [SetFirstLevel 0; ClearInterval None; SetInterval 1; SetAutoLevelCapping 0;
     ClearInterval (Some 1%positive);
     SetFirstLevel 0; ClearInterval None; SetInterval 2]
  /\ Hls.autoLevelCapping (hls restartedWorld) = 0
  /\ autoLevelCapping (this restartedWorld) = POSITIVE_INFINITY
  /\ streamController (this restartedWorld) = Some 9%nat
  /\ timer (this restartedWorld) = Some 2%positive
  /\ Hls.autoLevelCapping (hls (world_of (detectPlayerSize restartedWorld))) = 2
  /\ trace (world_of (detectPlayerSize restartedWorld))
     = trace restartedWorld ++ [SetAutoLevelCapping 2].
Proof.
  vm_compute. repeat split.
Qed.

(** The window of a player of three levels grows from 640x360 to 1280x720
    between two ticks, then shrinks to 320x180: the caps published are 1 (at
    the start), 2, 2 and 0, and the stream controller is called once, right
    after the first publication of 2. *)
Example ticks_loosening_then_tightening :
  trace (run [HostChange (hlsOf ladderABC (-1)) (pageOf 1280 720);
              TimerTick; TimerTick;
              HostChange (hlsOf ladderABC (-1)) (pageOf 320 180);
              TimerTick] smallWindowWorld)
  = [SetFirstLevel 0; ClearInterval None; SetInterval 1;
     SetAutoLevelCapping 1;
     SetAutoLevelCapping 2; NextLevelSwitch 9%nat;
     SetAutoLevelCapping 2;
     SetAutoLevelCapping 0].
Proof. reflexivity. Qed.

(** C9, at the failing input.  Capping runs on an element of 640x360, cap 1
    is published and 640x360 is cached; the element is then no longer laid
    out and measures 0x0.  The tick's test of line 127 reads the cached
    640x360 and passes; [getMaxLevel] then measures 0x0, and the tick
    publishes cap 0 in place of 1.  The zero box it leaves in the cache makes
    the later ticks skip even once the element is laid out again at
    1280x720. *)
Theorem detectPlayerSize_zero_size_changes_cap :
  let w := staleGateWorld in
  let w' := world_of (detectPlayerSize w) in
  let w'' := run [HostChange (hlsOf ladderABC (-1)) (pageOf 1280 720)] w' in
  clientRect (this w) = Some (Rect.mk 640 360)
  /\ boundsRect (page w) (media (this w)) = Rect.mk 0 0
  /\ Hls.autoLevelCapping (hls w) = 1
  /\ detectPlayerSize w = Return tt w'
  /\ Hls.autoLevelCapping (hls w') = 0
  /\ autoLevelCapping (this w') = Finite 0
  /\ trace w' = trace w ++ [SetAutoLevelCapping 0]
  /\ clientRect (this w') = Some (Rect.mk 0 0)
  /\ boundsRect (page w'') (media (this w'')) = Rect.mk 1280 720
  /\ detectPlayerSize w'' = Return tt w''.
Proof.
  vm_compute. repeat split.
Qed.

(** ** What the callbacks preserve *)

Lemma preserves_bind {A B : Type} (P : World -> Prop) (m : M A) (k : A -> M B) :
  preserves P m -> (forall a, preserves P (k a)) -> preserves P (bind m k).
Proof.
  intros Hm Hk w Hw. unfold bind. specialize (Hm w Hw).
  destruct (m w) as [a w'|e w']; cbn in *; [now apply Hk | exact Hm].
Qed.

Lemma preserves_getMaxLevel (P : World -> Prop) (capLevelIndex : Z) :
  (forall w, P w -> P (measured w)) -> preserves P (getMaxLevel capLevelIndex).
Proof.
  intros H w Hw. rewrite getMaxLevel_eq.
  destruct (Hls.levels (hls w)); cbn; auto.
Qed.

Lemma run_preserves (P : World -> Prop) (inputs : list Input) :
  (forall i, In i inputs -> preserves P (handle i)) ->
  forall w, P w -> P (run inputs w).
Proof.
  induction inputs as [|i rest IH]; intros H w Hw; cbn; [exact Hw|].
  apply IH.
  - intros j Hj. apply H. now right.
  - apply H; [now left | exact Hw].
Qed.

(** Splits a sequence of statements, branches on the tests, and closes the
    leaves at which the property reads off the updated world. *)
Ltac preserves_steps :=
  repeat lazymatch goal with
    | |- preserves _ (bind _ _) => apply preserves_bind; [|intros ?]
    | |- preserves _ (if ?b then _ else _) => destruct b
    | |- preserves _ (match ?x with _ => _ end) => destruct x
    end;
  try (let w := fresh "w" in let Hw := fresh "Hw" in
       intros w Hw; cbn; solve [exact Hw | constructor]).

(** *** The exclusion set has no duplicates *)

Lemma sameLevel_restrictedOf (l : Level.t) : sameLevel l (restrictedOf l) = true.
Proof. unfold sameLevel. cbn. now rewrite !Z.eqb_refl. Qed.

(** The comparison on the three fields decides equality of the triples. *)
Lemma sameLevel_iff (l : Level.t) (r : RestrictedLevel.t) :
  sameLevel l r = true <-> restrictedOf l = r.
Proof.
  destruct l as [lw lh lb], r as [rw rh rb]. unfold sameLevel, restrictedOf. cbn.
  rewrite !andb_true_iff, !Z.eqb_eq. split.
  - intros [[-> ->] ->]. reflexivity.
  - intros H. injection H as -> -> ->. auto.
Qed.

Lemma levelAllowed_iff (restricted : list RestrictedLevel.t) (l : Level.t) :
  levelAllowed restricted l = true <-> ~ In (restrictedOf l) restricted.
Proof.
  unfold levelAllowed. rewrite negb_true_iff, <- not_true_iff_false, existsb_exists.
  split; intros H.
  - intros Hin. apply H. exists (restrictedOf l). split; [exact Hin|].
    apply sameLevel_restrictedOf.
  - intros [r [Hin Hs]]. apply sameLevel_iff in Hs. now subst r.
Qed.

Lemma NoDuplicates_onFpsDropLevelCapping (droppedLevel : Z) :
  preserves NoDuplicates (onFpsDropLevelCapping droppedLevel).
Proof.
  intros w Hw. rewrite onFpsDropLevelCapping_eq.
  destruct (index (Hls.levels (hls w)) droppedLevel) as [l|]; [|exact Hw].
  destruct (levelAllowed (restrictedLevels (this w)) l) eqn:Ea; [|exact Hw].
  unfold NoDuplicates in *. cbn.
  apply levelAllowed_iff in Ea.
  apply (NoDup_Add (a := restrictedOf l) (l := restrictedLevels (this w))).
  - rewrite <- (app_nil_r (restrictedLevels (this w))) at 1. apply Add_app.
  - now split.
Qed.

Lemma NoDuplicates_detectPlayerSize : preserves NoDuplicates detectPlayerSize.
Proof.
  intros w Hw. rewrite detectPlayerSize_eq.
  destruct (media (this w)); [|exact Hw].
  destruct (_ && _); [destruct (Hls.levels (hls w))|]; exact Hw.
Qed.

Lemma NoDuplicates_startCapping : preserves NoDuplicates startCapping.
Proof.
  unfold startCapping. preserves_steps.
  - apply preserves_getMaxLevel. now intros w Hw.
  - apply NoDuplicates_detectPlayerSize.
Qed.

Lemma NoDuplicates_stopCapping : preserves NoDuplicates stopCapping.
Proof. unfold stopCapping. preserves_steps. Qed.

Lemma NoDuplicates_handle (i : Input) : preserves NoDuplicates (handle i).
Proof.
  destruct i; cbn [handle].
  - apply NoDuplicates_onFpsDropLevelCapping.
  - unfold onMediaAttaching. preserves_steps.
  - unfold onManifestParsed. preserves_steps. apply NoDuplicates_startCapping.
  - unfold onBufferCodecs. preserves_steps. apply NoDuplicates_startCapping.
  - apply NoDuplicates_stopCapping.
  - apply NoDuplicates_detectPlayerSize.
  - now intros w Hw.
  - now intros w Hw.
Qed.

(** From its construction on, whatever happens to it, the controller never
    holds a triple twice. *)
Corollary NoDuplicates_reachable (h : Hls.t) (p : Page) (inputs : list Input) :
  NoDuplicates (run inputs (newWorld h p)).
Proof.
  apply run_preserves.
  - intros i _. apply NoDuplicates_handle.
  - constructor.
Qed.

(** C6: an exclusion set without duplicate triples stays so through every
    sequence of callbacks, drop notifications included; a second identical
    drop notification changes nothing; and from an empty exclusion set, the
    same drop recorded twice leaves exactly one entry, the triple of the
    dropped level. *)
Theorem restrictedLevels_no_duplicates (w : World) (inputs : list Input) :
  NoDup (restrictedLevels (this w)) ->
  NoDup (restrictedLevels (this (run inputs w)))
  /\ (forall d,
        run [FPS_DROP_LEVEL_CAPPING d; FPS_DROP_LEVEL_CAPPING d] w
        = run [FPS_DROP_LEVEL_CAPPING d] w)
  /\ (forall d l,
        restrictedLevels (this w) = [] ->
        index (Hls.levels (hls w)) d = Some l ->
        restrictedLevels
          (this (run [FPS_DROP_LEVEL_CAPPING d; FPS_DROP_LEVEL_CAPPING d] w))
        = [restrictedOf l]).
Proof.
  intros Hw. split; [|split].
  - apply (run_preserves NoDuplicates); [|exact Hw].
    intros i _. apply NoDuplicates_handle.
  - intros d. cbn [run handle]. rewrite (onFpsDropLevelCapping_eq d w).
    destruct (index (Hls.levels (hls w)) d) as [l|] eqn:E; cbn [world_of].
    + destruct (levelAllowed (restrictedLevels (this w)) l) eqn:Ea; cbn [world_of].
      * rewrite onFpsDropLevelCapping_eq. cbn [hls]. rewrite E.
        replace (levelAllowed _ l) with false; [reflexivity|].
        symmetry. apply not_true_iff_false. rewrite levelAllowed_iff. cbn.
        intros H. apply H, in_or_app. right. now left.
      * rewrite onFpsDropLevelCapping_eq, E, Ea. reflexivity.
    + rewrite onFpsDropLevelCapping_eq, E. reflexivity.
  - intros d l He Hi. cbn [run handle].
    rewrite (onFpsDropLevelCapping_eq d w), Hi, He. cbn [levelAllowed existsb negb world_of].
    rewrite onFpsDropLevelCapping_eq. cbn [hls]. rewrite Hi. cbn.
    unfold levelAllowed. cbn. now rewrite sameLevel_restrictedOf.
Qed.

Lemma restrictedLevels_no_duplicates_witness :
  NoDup (restrictedLevels (this (run [FPS_DROP_LEVEL_CAPPING 2;
                                      TimerTick;
                                      FPS_DROP_LEVEL_CAPPING 1;
                                      FPS_DROP_LEVEL_CAPPING 2;
                                      FPS_DROP_LEVEL_CAPPING 7] threeLevelWorld)))
  /\ restrictedLevels
       (this (run [FPS_DROP_LEVEL_CAPPING 2; FPS_DROP_LEVEL_CAPPING 2] threeLevelWorld))
     = [RestrictedLevel.mk 1280 720 1500000].
Proof.
  destruct (restrictedLevels_no_duplicates threeLevelWorld
              [FPS_DROP_LEVEL_CAPPING 2; TimerTick; FPS_DROP_LEVEL_CAPPING 1;
               FPS_DROP_LEVEL_CAPPING 2; FPS_DROP_LEVEL_CAPPING 7])
    as [Hnodup [_ Htwice]].
  - cbn. constructor.
  - split; [exact Hnodup|].
    apply (Htwice 2 (Level.mk 1280 720 1500000)); reflexivity.
Defined.

(** *** No surface, no publication *)

Lemma Frozen_detectPlayerSize (cap : Z) (w : World) :
  Frozen cap w -> detectPlayerSize w = Return tt w.
Proof.
  intros [Hm _]. rewrite detectPlayerSize_eq. now rewrite Hm.
Qed.

Lemma Frozen_startCapping (cap : Z) : preserves (Frozen cap) startCapping.
Proof.
  unfold startCapping. preserves_steps.
  - apply preserves_getMaxLevel. now intros w Hw.
  - intros w Hw. now rewrite (Frozen_detectPlayerSize cap w Hw).
Qed.

Lemma Frozen_stopCapping (cap : Z) : preserves (Frozen cap) stopCapping.
Proof. unfold stopCapping. preserves_steps. Qed.

Lemma Frozen_handle (cap : Z) (i : Input) :
  attachesVideo i = false -> preserves (Frozen cap) (handle i).
Proof.
  destruct i; cbn [handle]; intros Hi.
  - intros w Hw. rewrite onFpsDropLevelCapping_eq.
    destruct (index _ _); [destruct (levelAllowed _ _)|]; exact Hw.
  - destruct m; [discriminate|]. intros w [_ Hc]. split; [reflexivity | exact Hc].
  - unfold onManifestParsed. preserves_steps. apply Frozen_startCapping.
  - unfold onBufferCodecs. preserves_steps. apply Frozen_startCapping.
  - apply Frozen_stopCapping.
  - intros w Hw. now rewrite (Frozen_detectPlayerSize cap w Hw).
  - now intros w Hw.
  - now intros w Hw.
Qed.

(** C10: attaching a surface that is not a video element leaves the
    controller with no surface reference and no cached measurement.  From
    then on, through every sequence of callbacks in which no video element
    is attached (ticks, drops, manifests, codecs, detachments, changes of the
    level list and of the page), the surface reference stays null,
    [hls.autoLevelCapping] keeps the value it had, and a tick does nothing at
    all. *)
Theorem non_video_surface_freezes_cap (w : World) (a : nat) (inputs : list Input) :
  forallb (fun i => negb (attachesVideo i)) inputs = true ->
  exists w1,
    onMediaAttaching (OtherMediaElement a) w = Return tt w1
    /\ media (this w1) = None
    /\ clientRect (this w1) = None
    /\ media (this (run inputs w1)) = None
    /\ Hls.autoLevelCapping (hls (run inputs w1)) = Hls.autoLevelCapping (hls w)
    /\ detectPlayerSize (run inputs w1) = Return tt (run inputs w1).
Proof.
  intros Hin. set (w1 := world_of (onMediaAttaching (OtherMediaElement a) w)).
  exists w1. split; [reflexivity|].
  split; [reflexivity|]. split; [reflexivity|].
  assert (H : Frozen (Hls.autoLevelCapping (hls w)) (run inputs w1)).
  { apply run_preserves; [|now split].
    intros i Hi. apply Frozen_handle.
    rewrite forallb_forall in Hin. apply negb_true_iff. now apply Hin. }
  destruct H as [Hm Hc]. split; [exact Hm|]. split; [exact Hc|].
  apply (Frozen_detectPlayerSize (Hls.autoLevelCapping (hls w))). now split.
Qed.

Lemma non_video_surface_freezes_cap_witness :
  exists w1,
    onMediaAttaching (OtherMediaElement 5) threeLevelWorld = Return tt w1
    /\ media (this w1) = None
    /\ clientRect (this w1) = None
    /\ media (this (run [MANIFEST_PARSED 2 true; TimerTick;
                         HostChange (hlsOf ladder3 1) (pageOf 1280 720);
                         TimerTick] w1)) = None
    /\ Hls.autoLevelCapping
         (hls (run [MANIFEST_PARSED 2 true; TimerTick;
                    HostChange (hlsOf ladder3 1) (pageOf 1280 720);
                    TimerTick] w1))
       = Hls.autoLevelCapping (hls threeLevelWorld)
    /\ detectPlayerSize
         (run [MANIFEST_PARSED 2 true; TimerTick;
               HostChange (hlsOf ladder3 1) (pageOf 1280 720);
               TimerTick] w1)
       = Return tt
           (run [MANIFEST_PARSED 2 true; TimerTick;
                 HostChange (hlsOf ladder3 1) (pageOf 1280 720);
                 TimerTick] w1).
Proof.
  apply (non_video_surface_freezes_cap threeLevelWorld 5
           [MANIFEST_PARSED 2 true; TimerTick;
            HostChange (hlsOf ladder3 1) (pageOf 1280 720); TimerTick]).
  reflexivity.
Defined.

(** * Further properties of the controller *)

(** ** What [getMaxLevelByMediaSize] returns *)

Lemma firstMatch_None_all (ls : list Level.t) (tw th : Q) :
  forall i, firstMatch ls i tw th = None ->
    forall k, qualifies ls k tw th = false.
Proof.
  induction ls as [|x rest IH]; intros i H k; unfold qualifies.
  - now destruct k.
  - cbn in H.
    destruct (covers x tw th && atGreatestBandwidth x (hd_error rest)) eqn:E;
      [discriminate|].
    destruct k as [|k]; cbn.
    + now destruct rest.
    + apply (IH _ H k).
Qed.

Lemma firstMatch_qualifies (ls : list Level.t) (tw th : Q) (j : nat) :
  firstMatch ls 0 tw th = Some j ->
  qualifies ls j tw th = true
  /\ forall k, (k < j)%nat -> qualifies ls k tw th = false.
Proof.
  intros H. split.
  - apply firstMatch_Some in H as [_ [l [Hn [Hc Hg]]]].
    rewrite Nat.sub_0_r in Hn, Hg. unfold qualifies. now rewrite Hn, Hc, Hg.
  - intros k Hk. unfold qualifies.
    destruct (nth_error ls k) as [l|] eqn:En; [|reflexivity].
    apply (firstMatch_first _ _ _ _ _ H k l); [lia | exact En].
Qed.

(** On a non-empty array the result is an index of the array. *)
Theorem getMaxLevelByMediaSize_is_an_index (ls : list Level.t) (tw th : Q) :
  ls <> [] ->
  0 <= getMaxLevelByMediaSize ls tw th < length_Z ls
  /\ exists l, index ls (getMaxLevelByMediaSize ls tw th) = Some l.
Proof.
  intros Hne.
  destruct (getMaxLevelByMediaSize_range ls tw th) as [[_ Hlt] Hge].
  specialize (Hge Hne). split; [lia|].
  unfold length_Z in Hlt.
  rewrite <- (Z2Nat.id (getMaxLevelByMediaSize ls tw th)) by lia.
  rewrite index_of_nat.
  destruct (nth_error ls (Z.to_nat (getMaxLevelByMediaSize ls tw th))) as [l|] eqn:E;
    [now exists l|].
  apply nth_error_None in E. lia.
Qed.

Lemma getMaxLevelByMediaSize_is_an_index_witness :
  0 <= getMaxLevelByMediaSize ladderTiers 5000 5000 < length_Z ladderTiers
  /\ exists l, index ladderTiers (getMaxLevelByMediaSize ladderTiers 5000 5000) = Some l.
Proof.
  apply (getMaxLevelByMediaSize_is_an_index ladderTiers 5000 5000). discriminate.
Defined.

(** The result is the first position at which the level covers the footprint
    and is the last of its resolution; when there is no such position it is
    the last index, whatever the dimensions of that level. *)
Theorem getMaxLevelByMediaSize_first_qualifying (ls : list Level.t) (tw th : Q) :
  ls <> [] ->
  let r := getMaxLevelByMediaSize ls tw th in
  (qualifies ls (Z.to_nat r) tw th = true
   /\ forall k, (k < Z.to_nat r)%nat -> qualifies ls k tw th = false)
  \/ (r = length_Z ls - 1 /\ forall k, qualifies ls k tw th = false).
Proof.
  intros Hne r. subst r. unfold getMaxLevelByMediaSize.
  destruct ls as [|x rest]; [congruence|].
  destruct (firstMatch (x :: rest) 0 tw th) as [j|] eqn:E.
  - left. rewrite Nat2Z.id. now apply firstMatch_qualifies.
  - right. split; [reflexivity|]. now apply (firstMatch_None_all _ _ _ _ E).
Qed.

Lemma getMaxLevelByMediaSize_first_qualifying_witness :
  let r := getMaxLevelByMediaSize ladderTiers 641 361 in
  (qualifies ladderTiers (Z.to_nat r) 641 361 = true
   /\ forall k, (k < Z.to_nat r)%nat -> qualifies ladderTiers k 641 361 = false)
  \/ (r = length_Z ladderTiers - 1 /\ forall k, qualifies ladderTiers k 641 361 = false).
Proof.
  apply (getMaxLevelByMediaSize_first_qualifying ladderTiers 641 361). discriminate.
Defined.

(** In every case the level returned is the last of its run of equal
    dimensions: the level that follows it, if any, differs in width or in
    height. *)
Theorem getMaxLevelByMediaSize_last_of_its_resolution
  (ls : list Level.t) (tw th : Q) (l n : Level.t) :
  index ls (getMaxLevelByMediaSize ls tw th) = Some l ->
  index ls (getMaxLevelByMediaSize ls tw th + 1) = Some n ->
  Level.width l <> Level.width n \/ Level.height l <> Level.height n.
Proof.
  intros Hl Hn. unfold getMaxLevelByMediaSize in *.
  destruct ls as [|x rest]; [discriminate|].
  destruct (firstMatch (x :: rest) 0 tw th) as [j|] eqn:E.
  - apply firstMatch_Some in E as [_ [l' [Hj [_ Hg]]]].
    rewrite Nat.sub_0_r in Hj, Hg. rewrite index_of_nat in Hl.
    replace (Z.of_nat j + 1) with (Z.of_nat (S j)) in Hn by lia.
    rewrite index_of_nat in Hn.
    assert (l' = l) by congruence. subst l'. rewrite Hn in Hg. cbn in Hg.
    apply orb_true_iff in Hg as [Hg|Hg]; apply negb_true_iff, Z.eqb_neq in Hg; tauto.
  - exfalso. unfold length_Z in Hn.
    replace (Z.of_nat (length (x :: rest)) - 1 + 1)
      with (Z.of_nat (length (x :: rest))) in Hn by lia.
    rewrite index_of_nat in Hn.
    assert (nth_error (x :: rest) (length (x :: rest)) = None)
      by (apply nth_error_None; lia).
    congruence.
Qed.

Lemma getMaxLevelByMediaSize_last_of_its_resolution_witness :
  Level.width (Level.mk 640 360 800000) <> Level.width (Level.mk 1280 720 1500000)
  \/ Level.height (Level.mk 640 360 800000) <> Level.height (Level.mk 1280 720 1500000).
Proof.
  apply (getMaxLevelByMediaSize_last_of_its_resolution ladderTiers 600 300);
    reflexivity.
Defined.

Lemma covers_antitone (l : Level.t) (tw th tw' th' : Q) :
  (tw <= tw')%Q -> (th <= th')%Q ->
  covers l tw' th' = true -> covers l tw th = true.
Proof.
  intros Hw Hh H. apply covers_iff. apply covers_iff in H.
  destruct H as [H|H]; [left|right]; eapply Qle_trans; eassumption.
Qed.

Lemma firstMatch_antitone (ls : list Level.t) (tw th tw' th' : Q) :
  (tw <= tw')%Q -> (th <= th')%Q ->
  forall i j', firstMatch ls i tw' th' = Some j' ->
    exists j, firstMatch ls i tw th = Some j /\ (j <= j')%nat.
Proof.
  intros Hw Hh. induction ls as [|x rest IH]; intros i j' H; cbn in *; [discriminate|].
  destruct (covers x tw' th' && atGreatestBandwidth x (hd_error rest)) eqn:E'.
  - injection H as <-. apply andb_true_iff in E' as [Ec Eg].
    rewrite (covers_antitone _ _ _ _ _ Hw Hh Ec), Eg. cbn. now exists i.
  - destruct (covers x tw th && atGreatestBandwidth x (hd_error rest)).
    + exists i. split; [reflexivity|].
      apply firstMatch_Some in H as [Hr _]. lia.
    + now apply IH.
Qed.

(** A larger footprint never selects a lower level, on any array. *)
Theorem getMaxLevelByMediaSize_monotone (ls : list Level.t) (tw th tw' th' : Q) :
  (tw <= tw')%Q -> (th <= th')%Q ->
  getMaxLevelByMediaSize ls tw th <= getMaxLevelByMediaSize ls tw' th'.
Proof.
  intros Hw Hh.
  pose proof (getMaxLevelByMediaSize_range ls tw th) as [[_ Hlt] _].
  unfold getMaxLevelByMediaSize in *. destruct ls as [|x rest]; [lia|].
  destruct (firstMatch (x :: rest) 0 tw' th') as [j'|] eqn:E'.
  - destruct (firstMatch_antitone _ _ _ _ _ Hw Hh _ _ E') as [j [-> Hj]]. lia.
  - lia.
Qed.

Lemma getMaxLevelByMediaSize_monotone_witness :
  getMaxLevelByMediaSize ladderTiers 640 360
  <= getMaxLevelByMediaSize ladderTiers 1000 600.
Proof.
  apply (getMaxLevelByMediaSize_monotone ladderTiers 640 360 1000 600);
    vm_compute; discriminate.
Defined.

(** ** What [getMaxLevel] returns *)

Lemma filter_from_length (A : Type) (f : A -> nat -> bool) (ls : list A) :
  forall i, (length (filter_from f i ls) <= length ls)%nat.
Proof.
  induction ls as [|x rest IH]; intros i; cbn; [lia|].
  specialize (IH (S i)). destruct (f x i); cbn; lia.
Qed.

Lemma valid_length_ceiling (restricted : list RestrictedLevel.t) (c : Z)
  (ls : list Level.t) :
  forall i,
    Z.of_nat (length (filter_from (isValidLevel restricted c) i ls))
    <= Z.max 0 (c + 1 - Z.of_nat i).
Proof.
  induction ls as [|x rest IH]; intros i; cbn; [lia|].
  specialize (IH (S i)). unfold isValidLevel at 1.
  destruct (Z.of_nat i <=? c) eqn:E.
  - apply Z.leb_le in E. destruct (levelAllowed restricted x); cbn [andb length]; lia.
  - apply Z.leb_gt in E. rewrite andb_false_r. lia.
Qed.

Lemma selectCap_bounds (restricted : list RestrictedLevel.t) (ls : list Level.t)
  (tw th : Q) (c : Z) :
  -1 <= selectCap restricted ls tw th c
  /\ selectCap restricted ls tw th c < length_Z ls
  /\ selectCap restricted ls tw th c <= Z.max c (-1).
Proof.
  unfold selectCap, Array_filter.
  pose proof (getMaxLevelByMediaSize_range
                (filter_from (isValidLevel restricted c) 0 ls) tw th) as [[Hlo Hhi] _].
  pose proof (filter_from_length _ (isValidLevel restricted c) ls 0%nat).
  pose proof (valid_length_ceiling restricted c ls 0%nat).
  unfold length_Z in *. lia.
Qed.

(** The index [getMaxLevel] returns is below the number of levels and never
    above the ceiling index it was given (or -1, when that is lower); it is
    at least -1 unless [hls.maxLevelCapping] itself is below -1. *)
Theorem getMaxLevel_bounds (capLevelIndex : Z) (w : World) (r : Z) :
  value_of (getMaxLevel capLevelIndex w) = Some r ->
  r < length_Z (Hls.levels (hls w))
  /\ r <= Z.max capLevelIndex (-1)
  /\ (-1 <= Hls.maxLevelCapping (hls w) -> -1 <= r).
Proof.
  rewrite getMaxLevel_eq.
  destruct (Hls.levels (hls w)) as [|x rest] eqn:E; cbn [value_of]; intros H;
    injection H as <-.
  - unfold length_Z. cbn. lia.
  - rewrite <- E.
    pose proof (selectCap_bounds (restrictedLevels (this w)) (Hls.levels (hls w))
                  (targetWidth w) (targetHeight w) capLevelIndex) as [H1 [H2 H3]].
    unfold clampToMaxLevelCapping.
    destruct (Hls.maxLevelCapping (hls w) =? -1) eqn:Em; cbn [negb]; lia.
Qed.

Lemma getMaxLevel_bounds_witness :
  1 < length_Z (Hls.levels (hls ceilingWorld))
  /\ 1 <= Z.max 2 (-1)
  /\ (-1 <= Hls.maxLevelCapping (hls ceilingWorld) -> -1 <= 1).
Proof.
  apply (getMaxLevel_bounds 2 ceilingWorld 1). reflexivity.
Defined.

Lemma filter_above_ceiling (restricted : list RestrictedLevel.t) (c : Z)
  (ls : list Level.t) :
  forall i, c < Z.of_nat i -> filter_from (isValidLevel restricted c) i ls = [].
Proof.
  induction ls as [|x rest IH]; intros i H; cbn; [reflexivity|].
  unfold isValidLevel at 1.
  replace (Z.of_nat i <=? c) with false by (symmetry; apply Z.leb_gt; lia).
  rewrite andb_false_r. apply IH. lia.
Qed.

Lemma filter_from_firstn (restricted : list RestrictedLevel.t) (c : Z)
  (ls : list Level.t) :
  forall i,
    filter_from (isValidLevel restricted c) i ls
    = filter_from (isValidLevel restricted c) i
        (firstn (Z.to_nat (c + 1 - Z.of_nat i)) ls).
Proof.
  induction ls as [|x rest IH]; intros i; [now rewrite firstn_nil|].
  destruct (Z.of_nat i <=? c) eqn:E.
  - apply Z.leb_le in E.
    replace (Z.to_nat (c + 1 - Z.of_nat i))
      with (S (Z.to_nat (c + 1 - Z.of_nat (S i)))) by lia.
    cbn. now rewrite <- IH.
  - apply Z.leb_gt in E.
    replace (Z.to_nat (c + 1 - Z.of_nat i)) with 0%nat by lia.
    cbn [firstn]. rewrite filter_above_ceiling by exact E. reflexivity.
Qed.

(** The levels above the ceiling index play no part in the selection: the
    selector returns what it returns on the first [ceilingIndex + 1] levels
    alone. *)
Theorem selectCap_ignores_levels_above_ceiling
  (restricted : list RestrictedLevel.t) (rungs : list Level.t)
  (tw th : Q) (ceilingIndex : Z) :
  selectCap restricted rungs tw th ceilingIndex
  = selectCap restricted (firstn (Z.to_nat (ceilingIndex + 1)) rungs) tw th ceilingIndex.
Proof.
  unfold selectCap, Array_filter.
  rewrite (filter_from_firstn restricted ceilingIndex rungs 0).
  now rewrite Z.sub_0_r.
Qed.

Lemma filter_from_none (A : Type) (f : A -> nat -> bool) (ls : list A) :
  (forall x k, In x ls -> f x k = false) ->
  forall i, filter_from f i ls = [].
Proof.
  induction ls as [|x rest IH]; intros H i; cbn; [reflexivity|].
  rewrite (H x i) by now left. apply IH. intros y k Hy. apply H. now right.
Qed.

(** When every level of the list is excluded, [getMaxLevel] returns -1, the
    value [hls] reads as "no cap" (given that [hls.maxLevelCapping] is not
    below -1). *)
Theorem getMaxLevel_all_excluded (capLevelIndex : Z) (w : World) :
  (forall l, In l (Hls.levels (hls w)) ->
     levelAllowed (restrictedLevels (this w)) l = false) ->
  -1 <= Hls.maxLevelCapping (hls w) ->
  value_of (getMaxLevel capLevelIndex w) = Some (-1).
Proof.
  intros Hall Hm. rewrite getMaxLevel_eq.
  destruct (Hls.levels (hls w)) as [|x rest] eqn:E; [reflexivity|].
  rewrite <- E. cbn [value_of]. f_equal.
  unfold selectCap, Array_filter. rewrite filter_from_none.
  - unfold clampToMaxLevelCapping. cbn [getMaxLevelByMediaSize].
    destruct (Hls.maxLevelCapping (hls w) =? -1) eqn:Em; cbn [negb]; lia.
  - intros l k Hl. rewrite E in Hl. unfold isValidLevel. now rewrite (Hall l Hl).
Qed.

Lemma getMaxLevel_all_excluded_witness :
  value_of (getMaxLevel 2 allExcludedWorld) = Some (-1).
Proof.
  apply (getMaxLevel_all_excluded 2 allExcludedWorld).
  - intros l Hl. cbn in Hl.
    destruct Hl as [<-|[<-|[<-|[]]]]; reflexivity.
  - vm_compute. discriminate.
Defined.

Lemma selectCap_mapped_when_none_excluded_witness :
  selectCap [] ladderTiers 641 361 3 = selectCap_mapped [] ladderTiers 641 361 3.
Proof.
  apply (selectCap_mapped_when_none_excluded [] ladderTiers 641 361 3).
  intros l _. reflexivity.
Defined.

(** ** The exclusion set over time *)

Lemma filter_from_In (A : Type) (f : A -> nat -> bool) (ls : list A) (x : A) :
  forall i, In x (filter_from f i ls) -> exists k, f x k = true.
Proof.
  induction ls as [|y rest IH]; intros i H; cbn in H; [contradiction|].
  destruct (f y i) eqn:E.
  - destruct H as [<-|H]; [now exists i | now apply (IH (S i))].
  - now apply (IH (S i)).
Qed.

(** Once a drop has been recorded for a level in range, every level with the
    same bitrate, width and height, at whatever index, is refused by
    [isLevelAllowed] and is no candidate of [getMaxLevel] under any ceiling. *)
Theorem dropped_level_is_excluded (w : World) (droppedLevel : Z) (l l' : Level.t) :
  index (Hls.levels (hls w)) droppedLevel = Some l ->
  Level.bitrate l' = Level.bitrate l ->
  Level.width l' = Level.width l ->
  Level.height l' = Level.height l ->
  let w' := world_of (onFpsDropLevelCapping droppedLevel w) in
  isLevelAllowed (Some l') w' = Return false w'
  /\ forall capLevelIndex,
       ~ In l' (Array_filter (isValidLevel (restrictedLevels (this w')) capLevelIndex)
                             (Hls.levels (hls w'))).
Proof.
  intros Hi Hb Hw Hh w'.
  assert (Hr : restrictedOf l' = restrictedOf l)
    by (unfold restrictedOf; now rewrite Hb, Hw, Hh).
  assert (Hno : levelAllowed (restrictedLevels (this w')) l' = false).
  { apply not_true_iff_false. rewrite levelAllowed_iff. intros H. apply H. clear H.
    rewrite Hr. subst w'. rewrite onFpsDropLevelCapping_eq, Hi.
    destruct (levelAllowed (restrictedLevels (this w)) l) eqn:Ea; cbn.
    - apply in_or_app. right. now left.
    - apply not_true_iff_false in Ea. rewrite levelAllowed_iff in Ea.
      destruct (in_dec
                  (fun a b : RestrictedLevel.t =>
                     ltac:(decide equality; apply Z.eq_dec) : {a = b} + {a <> b})
                  (restrictedOf l) (restrictedLevels (this w))); tauto. }
  split.
  - rewrite isLevelAllowed_defined. now rewrite Hno.
  - intros c Hin. apply filter_from_In in Hin as [k Hk].
    unfold isValidLevel in Hk. rewrite Hno in Hk. discriminate.
Qed.

Lemma dropped_level_is_excluded_witness :
  let w' := world_of (onFpsDropLevelCapping 1 threeLevelWorld) in
  isLevelAllowed (Some (Level.mk 640 360 800000)) w' = Return false w'
  /\ forall capLevelIndex,
       ~ In (Level.mk 640 360 800000)
            (Array_filter (isValidLevel (restrictedLevels (this w')) capLevelIndex)
                          (Hls.levels (hls w'))).
Proof.
  apply (dropped_level_is_excluded threeLevelWorld 1
           (Level.mk 640 360 800000) (Level.mk 640 360 800000));
    reflexivity.
Defined.

(** A property kept by caching a measurement and by an evaluated tick is
    kept by [detectPlayerSize]. *)
Lemma preserves_detectPlayerSize (P : World -> Prop) :
  (forall w, P w -> P (remembered w)) ->
  (forall w, P w -> P (afterTick w)) ->
  preserves P detectPlayerSize.
Proof.
  intros Hr Ha w Hw. rewrite detectPlayerSize_eq.
  destruct (media (this w)); [|exact Hw].
  destruct (_ && _); [destruct (Hls.levels (hls w))|]; cbn; auto.
Qed.

(** Between two stream restarts the exclusion set only grows: through drop
    notifications, ticks, attachments, codec notifications and changes of the
    host, the entries it had stay, in their order, and so a level that was
    excluded stays excluded. *)
Theorem restrictedLevels_only_grow (w : World) (inputs : list Input) :
  forallb (fun i => negb (clearsExclusions i)) inputs = true ->
  (exists added,
     restrictedLevels (this (run inputs w)) = restrictedLevels (this w) ++ added)
  /\ forall l, levelAllowed (restrictedLevels (this w)) l = false ->
               levelAllowed (restrictedLevels (this (run inputs w))) l = false.
Proof.
  intros Hin.
  set (P := fun w' : World =>
              exists added,
                restrictedLevels (this w') = restrictedLevels (this w) ++ added).
  assert (HP : P (run inputs w)).
  { apply run_preserves; [|exists []; now rewrite app_nil_r].
    intros i Hi. rewrite forallb_forall in Hin. specialize (Hin i Hi).
    assert (Hstart : preserves P startCapping).
    { unfold startCapping. preserves_steps.
      - apply preserves_getMaxLevel. now intros w' Hw'.
      - apply preserves_detectPlayerSize; now intros w' Hw'. }
    destruct i; cbn [handle]; try discriminate Hin.
    - intros w' [added Hw']. rewrite onFpsDropLevelCapping_eq.
      destruct (index _ _) as [l|]; [|now exists added].
      destruct (levelAllowed _ l); [|now exists added].
      exists (added ++ [restrictedOf l]). cbn. now rewrite Hw', app_assoc.
    - unfold onMediaAttaching. preserves_steps.
    - unfold onBufferCodecs. preserves_steps. exact Hstart.
    - apply preserves_detectPlayerSize; now intros w' Hw'.
    - now intros w' Hw'.
    - now intros w' Hw'. }
  split; [exact HP|].
  destruct HP as [added Ha]. intros l Hl.
  apply not_true_iff_false. apply not_true_iff_false in Hl.
  rewrite levelAllowed_iff in *. intros H. apply Hl. intros Hin'. apply H.
  rewrite Ha. apply in_or_app. now left.
Qed.

Lemma restrictedLevels_only_grow_witness :
  (exists added,
     restrictedLevels
       (this (run [TimerTick; FPS_DROP_LEVEL_CAPPING 2; BUFFER_CODECS true; TimerTick]
                  middleExcludedWorld))
     = restrictedLevels (this middleExcludedWorld) ++ added)
  /\ forall l, levelAllowed (restrictedLevels (this middleExcludedWorld)) l = false ->
               levelAllowed
                 (restrictedLevels
                    (this (run [TimerTick; FPS_DROP_LEVEL_CAPPING 2;
                                BUFFER_CODECS true; TimerTick]
                               middleExcludedWorld))) l = false.
Proof.
  apply (restrictedLevels_only_grow middleExcludedWorld
           [TimerTick; FPS_DROP_LEVEL_CAPPING 2; BUFFER_CODECS true; TimerTick]).
  reflexivity.
Defined.

(** ** Starting and stopping *)

Lemma detectPlayerSize_returns (w : World) :
  detectPlayerSize w = Return tt (world_of (detectPlayerSize w)).
Proof.
  rewrite detectPlayerSize_eq.
  destruct (media (this w)); [|reflexivity].
  destruct (_ && _); [destruct (Hls.levels (hls w))|]; reflexivity.
Qed.

(** [startCapping] in closed form. *)
Lemma startCapping_eq (w : World) :
  startCapping w =
  match timer (this w) with
  | Some _ => Return tt w
  | None => detectPlayerSize (armed w)
  end.
Proof.
  unfold startCapping. unfold bind at 1. unfold read at 1.
  destruct (timer (this w)) eqn:Et; [reflexivity|].
  unfold bind at 1. unfold update_this at 1.
  unfold bind at 1. unfold read at 1.
  unfold bind at 1. rewrite getMaxLevel_eq. cbn [hls this].
  unfold armed, startFirstLevel.
  destruct (Hls.levels (hls w)) eqn:El;
    unfold bind, update_hls, emit, read, setInterval, update_this; cbn;
    rewrite Et, <- !app_assoc; reflexivity.
Qed.

Lemma startCapping_returns (w : World) :
  startCapping w = Return tt (world_of (startCapping w)).
Proof.
  rewrite startCapping_eq. destruct (timer (this w)); [reflexivity|].
  apply detectPlayerSize_returns.
Qed.

(** [stopCapping] in closed form. *)
Lemma stopCapping_eq (w : World) : stopCapping w = Return tt (stopped w).
Proof.
  unfold stopCapping, stopped, bind, update_this, read, emit. cbn.
  destruct (timer (this w)) eqn:Et; cbn; [reflexivity|].
  now rewrite app_nil_r, <- Et.
Qed.

(** A parsed manifest always returns normally and leaves the exclusion set
    empty and the first level it announced recorded, whether or not capping
    starts. *)
Theorem onManifestParsed_resets (w : World) (dataFirstLevel : Z) (video : bool) :
  exists w',
    onManifestParsed dataFirstLevel video w = Return tt w'
    /\ restrictedLevels (this w') = []
    /\ firstLevel (this w') = dataFirstLevel.
Proof.
  set (P := fun w' : World =>
              restrictedLevels (this w') = [] /\ firstLevel (this w') = dataFirstLevel).
  assert (Hstart : preserves P startCapping).
  { unfold startCapping. preserves_steps.
    - apply preserves_getMaxLevel. now intros w' Hw'.
    - apply preserves_detectPlayerSize; now intros w' Hw'. }
  unfold onManifestParsed, bind, update_this, read. cbn.
  destruct (Hls.capLevelToPlayerSize (hls w) && video).
  - eexists. split; [apply startCapping_returns|].
    apply Hstart. now split.
  - eexists. split; [reflexivity|]. now split.
Qed.

(** Detaching the surface stops capping: the exclusion set is emptied, the
    first level and the remembered cap are reset, the timer is disarmed.  The
    surface reference and the cached measurement stay, nothing is written to
    [hls] (the last published cap remains in force), and detaching again
    changes nothing, not even the trace. *)
Theorem onMediaDetaching_resets (w : World) :
  exists w',
    onMediaDetaching w = Return tt w'
    /\ restrictedLevels (this w') = []
    /\ firstLevel (this w') = -1
    /\ autoLevelCapping (this w') = POSITIVE_INFINITY
    /\ timer (this w') = None
    /\ media (this w') = media (this w)
    /\ clientRect (this w') = clientRect (this w)
    /\ streamController (this w') = streamController (this w)
    /\ hls w' = hls w
    /\ onMediaDetaching w' = Return tt w'.
Proof.
  exists (stopped w). unfold onMediaDetaching. rewrite !stopCapping_eq.
  repeat split. unfold stopped. cbn. now rewrite app_nil_r.
Qed.

Lemma startCapping_arms (w : World) :
  timer (this (world_of (startCapping w))) <> None.
Proof.
  rewrite startCapping_eq. destruct (timer (this w)) eqn:Et.
  - cbn. congruence.
  - set (P := fun w' : World => timer (this w') = Some (nextTimerId w)).
    assert (H : P (world_of (detectPlayerSize (armed w)))).
    { apply preserves_detectPlayerSize; [now intros w' Hw' .. | reflexivity]. }
    unfold P in H. congruence.
Qed.

Lemma onBufferCodecs_armed (w : World) (video : bool) :
  timer (this w) <> None -> world_of (onBufferCodecs video w) = w.
Proof.
  intros Ht. unfold onBufferCodecs, bind, read.
  destruct (Hls.capLevelToPlayerSize (hls w) && video); [|reflexivity].
  rewrite startCapping_eq. destruct (timer (this w)); [reflexivity | congruence].
Qed.

(** Starting is re-entrant: once a manifest with a video track has started
    capping, the codec notification that follows is a no-op, so the timer is
    not armed twice and the cap is not reset. *)
Theorem second_start_is_a_no_op (w : World) (dataFirstLevel : Z) (video : bool) :
  Hls.capLevelToPlayerSize (hls w) = true ->
  run [MANIFEST_PARSED dataFirstLevel true; BUFFER_CODECS video] w
  = run [MANIFEST_PARSED dataFirstLevel true] w.
Proof.
  intros Hc. cbn [run handle]. apply onBufferCodecs_armed.
  unfold onManifestParsed, bind, update_this, read. cbn [hls].
  rewrite Hc. cbn [andb]. apply startCapping_arms.
Qed.

Lemma second_start_is_a_no_op_witness :
  run [MANIFEST_PARSED 2 true; BUFFER_CODECS true] threeLevelWorld
  = run [MANIFEST_PARSED 2 true] threeLevelWorld.
Proof.
  apply (second_start_is_a_no_op threeLevelWorld 2 true). reflexivity.
Defined.

(** [startCapping] never calls [nextLevelSwitch]: its immediate evaluation
    compares the new cap with the positive infinity it has just stored. *)
Theorem startCapping_never_switches (w : World) :
  exists new,
    trace (world_of (startCapping w)) = trace w ++ new
    /\ forallb (fun e => negb (isNextLevelSwitch e)) new = true.
Proof.
  rewrite startCapping_eq. destruct (timer (this w)) eqn:Et.
  - exists []. now rewrite app_nil_r.
  - rewrite detectPlayerSize_eq.
    change (media (this (armed w)))
      with (media (this match Hls.levels (hls w) with [] => w | _ :: _ => measured w end)).
    assert (Hm : media (this match Hls.levels (hls w) with
                             | [] => w | _ :: _ => measured w end) = media (this w))
      by now destruct (Hls.levels (hls w)).
    rewrite Hm.
    destruct (media (this w)).
    + destruct (_ && _);
        [change (Hls.levels (hls (armed w))) with (Hls.levels (hls w));
         destruct (Hls.levels (hls w)) eqn:El|].
      * eexists. split; [reflexivity | reflexivity].
      * exists ([SetFirstLevel (startFirstLevel w); ClearInterval None;
                 SetInterval (nextTimerId w)] ++ tickEffects (armed w)).
        split; [cbn; now rewrite <- app_assoc | reflexivity].
      * eexists. split; [reflexivity | reflexivity].
    + eexists. split; [reflexivity | reflexivity].
Qed.

(** ** The timer *)

Lemma live_app (tr new : list Effect) :
  live (tr ++ new) = fold_left live_step new (live tr).
Proof. unfold live. apply fold_left_app. Qed.

Lemma live_inert (tr new : list Effect) :
  forallb (fun e => negb (isTimerEffect e)) new = true ->
  live (tr ++ new) = live tr.
Proof.
  rewrite live_app. generalize (live tr).
  induction new as [|e rest IH]; intros ids H; cbn in *; [reflexivity|].
  apply andb_true_iff in H as [He Hr]. rewrite IH by exact Hr.
  now destruct e.
Qed.

Lemma tickEffects_inert (w : World) :
  forallb (fun e => negb (isTimerEffect e)) (tickEffects w) = true.
Proof.
  unfold tickEffects.
  destruct (gt_number _ _); [destruct (streamController (this w))|]; reflexivity.
Qed.

Lemma remove_single (id : positive) : remove Pos.eq_dec id [id] = [].
Proof. cbn. now destruct (Pos.eq_dec id id). Qed.

Lemma TimerInvariant_detectPlayerSize : preserves TimerInvariant detectPlayerSize.
Proof.
  apply preserves_detectPlayerSize; intros w Hw; [exact Hw|].
  unfold TimerInvariant in *.
  change (trace (afterTick w)) with (trace w ++ tickEffects w).
  change (timer (this (afterTick w))) with (timer (this w)).
  now rewrite live_inert by apply tickEffects_inert.
Qed.

Lemma TimerInvariant_startCapping : preserves TimerInvariant startCapping.
Proof.
  intros w Hw. rewrite startCapping_eq.
  destruct (timer (this w)) eqn:Et; [exact Hw|].
  apply TimerInvariant_detectPlayerSize.
  unfold TimerInvariant in *. rewrite Et in Hw.
  change (timer (this (armed w))) with (Some (nextTimerId w)).
  change (trace (armed w))
    with (trace w ++ [SetFirstLevel (startFirstLevel w); ClearInterval None;
                      SetInterval (nextTimerId w)]).
  rewrite live_app, Hw. reflexivity.
Qed.

Lemma TimerInvariant_stopCapping : preserves TimerInvariant stopCapping.
Proof.
  intros w Hw. rewrite stopCapping_eq. unfold TimerInvariant in *.
  change (timer (this (world_of (Return tt (stopped w))))) with (@None positive).
  change (trace (world_of (Return tt (stopped w))))
    with (trace w ++ match timer (this w) with
                     | Some id => [ClearInterval (Some id)]
                     | None => []
                     end).
  destruct (timer (this w)) as [id|].
  - rewrite live_app, Hw. cbn [fold_left live_step]. apply remove_single.
  - now rewrite app_nil_r.
Qed.

Lemma TimerInvariant_handle (i : Input) : preserves TimerInvariant (handle i).
Proof.
  destruct i; cbn [handle].
  - intros w Hw. rewrite onFpsDropLevelCapping_eq.
    destruct (index _ _); [destruct (levelAllowed _ _)|]; exact Hw.
  - unfold onMediaAttaching. preserves_steps.
  - unfold onManifestParsed. preserves_steps. apply TimerInvariant_startCapping.
  - unfold onBufferCodecs. preserves_steps. apply TimerInvariant_startCapping.
  - apply TimerInvariant_stopCapping.
  - apply TimerInvariant_detectPlayerSize.
  - now intros w Hw.
  - now intros w Hw.
Qed.

(** From its construction on, whatever happens to it, the controller holds
    at most one interval, and it is the one its [timer] field names: every
    interval it set earlier has been cleared. *)
Theorem timer_names_the_only_live_interval (h : Hls.t) (p : Page) (inputs : list Input) :
  live (trace (run inputs (newWorld h p)))
  = match timer (this (run inputs (newWorld h p))) with
    | Some id => [id]
    | None => []
    end.
Proof.
  apply (run_preserves TimerInvariant).
  - intros i _. apply TimerInvariant_handle.
  - reflexivity.
Qed.

(** ** The stream controller *)

Lemma NoSwitch_extend (w w' : World) (new : list Effect) :
  NoSwitch w ->
  streamController (this w') = streamController (this w) ->
  trace w' = trace w ++ new ->
  forallb (fun e => negb (isNextLevelSwitch e)) new = true ->
  NoSwitch w'.
Proof.
  intros [Hs Ht] Hs' Ht' Hn. split; [congruence|].
  rewrite Ht', forallb_app, Ht, Hn. reflexivity.
Qed.

Lemma NoSwitch_detectPlayerSize : preserves NoSwitch detectPlayerSize.
Proof.
  apply preserves_detectPlayerSize; intros w Hw; [exact Hw|].
  apply (NoSwitch_extend w _ (tickEffects w) Hw); [reflexivity | reflexivity |].
  unfold tickEffects. destruct Hw as [-> _]. now destruct (gt_number _ _).
Qed.

Lemma NoSwitch_startCapping : preserves NoSwitch startCapping.
Proof.
  intros w Hw. rewrite startCapping_eq.
  destruct (timer (this w)); [exact Hw|].
  apply NoSwitch_detectPlayerSize.
  eapply (NoSwitch_extend w _ _ Hw); [|reflexivity|reflexivity].
  unfold armed. cbn. now destruct (Hls.levels (hls w)).
Qed.

Lemma NoSwitch_stopCapping : preserves NoSwitch stopCapping.
Proof.
  intros w Hw. rewrite stopCapping_eq.
  eapply (NoSwitch_extend w _ _ Hw); [reflexivity | reflexivity |].
  now destruct (timer (this w)).
Qed.

Lemma NoSwitch_handle (i : Input) :
  registersStreamController i = false -> preserves NoSwitch (handle i).
Proof.
  destruct i; cbn [handle]; intros Hi; try discriminate Hi.
  - intros w Hw. rewrite onFpsDropLevelCapping_eq.
    destruct (index _ _); [destruct (levelAllowed _ _)|]; exact Hw.
  - unfold onMediaAttaching. preserves_steps.
  - unfold onManifestParsed. preserves_steps. apply NoSwitch_startCapping.
  - unfold onBufferCodecs. preserves_steps. apply NoSwitch_startCapping.
  - apply NoSwitch_stopCapping.
  - apply NoSwitch_detectPlayerSize.
  - now intros w Hw.
Qed.

(** As long as no stream controller has been registered, the controller
    never attempts [nextLevelSwitch], whatever else happens to it; capping
    itself goes on. *)
Theorem no_switch_without_stream_controller
  (h : Hls.t) (p : Page) (inputs : list Input) :
  forallb (fun i => negb (registersStreamController i)) inputs = true ->
  streamController (this (run inputs (newWorld h p))) = None
  /\ forallb (fun e => negb (isNextLevelSwitch e))
             (trace (run inputs (newWorld h p))) = true.
Proof.
  intros Hin. apply (run_preserves NoSwitch).
  - intros i Hi. apply NoSwitch_handle.
    rewrite forallb_forall in Hin. apply negb_true_iff. now apply Hin.
  - now split.
Qed.

Lemma no_switch_without_stream_controller_witness :
  streamController
    (this (run [MEDIA_ATTACHING (VideoElement 0%nat); MANIFEST_PARSED 0 true;
                HostChange (hlsOf ladderABC (-1)) (pageOf 1280 720); TimerTick]
               (newWorld (hlsOf ladderABC (-1)) (pageOf 640 360)))) = None
  /\ forallb (fun e => negb (isNextLevelSwitch e))
       (trace (run [MEDIA_ATTACHING (VideoElement 0%nat); MANIFEST_PARSED 0 true;
                    HostChange (hlsOf ladderABC (-1)) (pageOf 1280 720); TimerTick]
                   (newWorld (hlsOf ladderABC (-1)) (pageOf 640 360)))) = true.
Proof.
  apply (no_switch_without_stream_controller
           (hlsOf ladderABC (-1)) (pageOf 640 360)
           [MEDIA_ATTACHING (VideoElement 0%nat); MANIFEST_PARSED 0 true;
            HostChange (hlsOf ladderABC (-1)) (pageOf 1280 720); TimerTick]).
  reflexivity.
Defined.

(** ** Capping switched off *)

Lemma Idle_handle (w0 : World) (i : Input) :
  keepsCappingOff i = true -> preserves (Idle w0) (handle i).
Proof.
  destruct i; cbn [handle keepsCappingOff]; intros Hi; try discriminate Hi.
  - intros w Hw. rewrite onFpsDropLevelCapping_eq.
    destruct (index _ _); [destruct (levelAllowed _ _)|]; exact Hw.
  - unfold onMediaAttaching. preserves_steps.
  - intros w Hw. unfold onManifestParsed, bind, update_this, read. cbn [hls].
    destruct Hw as [Hc Hw]. rewrite Hc. cbn. now split.
  - intros w Hw. unfold onBufferCodecs, bind, read.
    destruct Hw as [Hc Hw]. rewrite Hc. cbn. now split.
  - intros w Hw. unfold onMediaDetaching. rewrite stopCapping_eq.
    destruct Hw as [Hc [Ht [Htr Hh]]]. unfold stopped. rewrite Ht. cbn.
    rewrite app_nil_r. repeat split; tauto.
  - now intros w Hw.
  - intros w [Hc [Ht [Htr Hh]]]. apply negb_true_iff in Hi.
    cbn. repeat split; tauto.
Qed.

(** With [capLevelToPlayerSize] off the controller stays idle: through every
    notification and every change of the host that leaves the option off, it
    arms no timer, makes no outside call and writes neither
    [hls.autoLevelCapping] nor [hls.firstLevel]. *)
Theorem capping_off_is_idle (w : World) (inputs : list Input) :
  Hls.capLevelToPlayerSize (hls w) = false ->
  timer (this w) = None ->
  forallb keepsCappingOff inputs = true ->
  timer (this (run inputs w)) = None
  /\ trace (run inputs w) = trace w
  /\ Hls.autoLevelCapping (hls (run inputs w)) = Hls.autoLevelCapping (hls w)
  /\ Hls.firstLevel (hls (run inputs w)) = Hls.firstLevel (hls w).
Proof.
  intros Hc Ht Hin.
  assert (H : Idle w (run inputs w)).
  { apply run_preserves; [|now repeat split].
    intros i Hi. apply Idle_handle. rewrite forallb_forall in Hin. now apply Hin. }
  destruct H as [_ H]. exact H.
Qed.

Lemma capping_off_is_idle_witness :
  let w := newWorld (Hls.mk ladderABC false false (-1) (-1) (-1)) (pageOf 640 360) in
  let inputs := [MEDIA_ATTACHING (VideoElement 0%nat); MANIFEST_PARSED 1 true;
                 BUFFER_CODECS true; FPS_DROP_LEVEL_CAPPING 1; MEDIA_DETACHING] in
  timer (this (run inputs w)) = None
  /\ trace (run inputs w) = trace w
  /\ Hls.autoLevelCapping (hls (run inputs w)) = Hls.autoLevelCapping (hls w)
  /\ Hls.firstLevel (hls (run inputs w)) = Hls.firstLevel (hls w).
Proof.
  apply (capping_off_is_idle
           (newWorld (Hls.mk ladderABC false false (-1) (-1) (-1)) (pageOf 640 360))
           [MEDIA_ATTACHING (VideoElement 0%nat); MANIFEST_PARSED 1 true;
            BUFFER_CODECS true; FPS_DROP_LEVEL_CAPPING 1; MEDIA_DETACHING]);
    reflexivity.
Defined.

(** ** Ticks and the cached measurement *)

Lemma remembered_cached (w : World) (r : Rect.t) :
  clientRect (this w) = Some r -> remembered w = w.
Proof.
  destruct w as [[a f m rs t c s] h p n tr]. cbn. intros ->. reflexivity.
Qed.

Lemma Qgtb_zero_scaled (x s : Q) : (x == 0)%Q -> Qgtb (x * s) 0 = false.
Proof.
  intros H. unfold Qgtb. apply negb_false_iff, Qle_bool_iff.
  rewrite H, Qmult_0_l. apply Qle_refl.
Qed.

Lemma detectPlayerSize_zero_cached (w : World) (r : Rect.t) :
  clientRect (this w) = Some r ->
  (Rect.width r == 0)%Q \/ (Rect.height r == 0)%Q ->
  detectPlayerSize w = Return tt w.
Proof.
  intros Hc Hz. rewrite detectPlayerSize_eq.
  destruct (media (this w)); [|reflexivity].
  rewrite (remembered_cached w r Hc).
  replace (Qgtb (gateHeight w) 0 && Qgtb (gateWidth w) 0) with false; [reflexivity|].
  symmetry. unfold gateHeight, gateWidth, dimensions. rewrite Hc.
  destruct Hz as [Hz|Hz]; rewrite (Qgtb_zero_scaled _ _ Hz);
    [apply andb_false_r | reflexivity].
Qed.

Lemma Cached_handle (r : Rect.t) (cap : Z) (i : Input) :
  (Rect.width r == 0)%Q \/ (Rect.height r == 0)%Q ->
  keepsMeasurement i = true -> preserves (Cached r cap) (handle i).
Proof.
  intros Hz. destruct i; cbn [handle keepsMeasurement]; intros Hi; try discriminate Hi.
  - intros w Hw. rewrite onFpsDropLevelCapping_eq.
    destruct (index _ _); [destruct (levelAllowed _ _)|]; exact Hw.
  - intros w Hw. unfold onMediaDetaching. rewrite stopCapping_eq. exact Hw.
  - intros w Hw. destruct Hw as [Hc Hh].
    rewrite (detectPlayerSize_zero_cached w r Hc Hz). now split.
  - now intros w Hw.
  - now intros w Hw.
Qed.

(** A tick reads the cached measurement at its gate and only an evaluated
    tick refreshes it.  So once a box of zero width or zero height is cached,
    ticks are skipped for good: through ticks, drops, detachments and any
    change of the page, until a surface is attached or capping is started,
    the box stays cached, [hls.autoLevelCapping] keeps its value and a tick
    does nothing at all. *)
Theorem zero_measurement_is_never_refreshed (w : World) (r : Rect.t) (inputs : list Input) :
  clientRect (this w) = Some r ->
  (Rect.width r == 0)%Q \/ (Rect.height r == 0)%Q ->
  forallb keepsMeasurement inputs = true ->
  clientRect (this (run inputs w)) = Some r
  /\ Hls.autoLevelCapping (hls (run inputs w)) = Hls.autoLevelCapping (hls w)
  /\ detectPlayerSize (run inputs w) = Return tt (run inputs w).
Proof.
  intros Hc Hz Hin.
  assert (H : Cached r (Hls.autoLevelCapping (hls w)) (run inputs w)).
  { apply run_preserves; [|now split].
    intros i Hi. apply Cached_handle; [exact Hz|].
    rewrite forallb_forall in Hin. now apply Hin. }
  destruct H as [H1 H2]. repeat split; trivial.
  now apply (detectPlayerSize_zero_cached _ r).
Qed.

Lemma zero_measurement_is_never_refreshed_witness :
  let inputs := [HostChange (hlsOf ladderABC (-1)) (pageOf 1280 720);
                 TimerTick; TimerTick] in
  clientRect (this (run inputs stuckWorld)) = Some (Rect.mk 0 0)
  /\ Hls.autoLevelCapping (hls (run inputs stuckWorld))
     = Hls.autoLevelCapping (hls stuckWorld)
  /\ detectPlayerSize (run inputs stuckWorld) = Return tt (run inputs stuckWorld).
Proof.
  apply (zero_measurement_is_never_refreshed stuckWorld (Rect.mk 0 0)
           [HostChange (hlsOf ladderABC (-1)) (pageOf 1280 720); TimerTick; TimerTick]).
  - reflexivity.
  - left. reflexivity.
  - reflexivity.
Defined.

(** With nothing changing in between, a second tick neither changes
    [hls.autoLevelCapping] nor calls the stream controller. *)
Theorem second_tick_is_quiet (w : World) :
  let w1 := world_of (detectPlayerSize w) in
  let w2 := world_of (detectPlayerSize w1) in
  exists new,
    trace w2 = trace w1 ++ new
    /\ forallb (fun e => negb (isNextLevelSwitch e)) new = true
    /\ Hls.autoLevelCapping (hls w2) = Hls.autoLevelCapping (hls w1).
Proof.
  cbv zeta.
  assert (Hskip : forall w1 : World,
            (media (this w1) = None
             \/ Qgtb (gateHeight w1) 0 && Qgtb (gateWidth w1) 0 = false
             \/ Hls.levels (hls w1) = []) ->
            exists new,
              trace (world_of (detectPlayerSize w1)) = trace w1 ++ new
              /\ forallb (fun e => negb (isNextLevelSwitch e)) new = true
              /\ Hls.autoLevelCapping (hls (world_of (detectPlayerSize w1)))
                 = Hls.autoLevelCapping (hls w1)).
  { intros w1 H. exists []. rewrite app_nil_r, detectPlayerSize_eq.
    destruct (media (this w1)); [|now repeat split].
    destruct (_ && _) eqn:Eg; [|now repeat split].
    destruct (Hls.levels (hls w1)); [now repeat split|].
    destruct H as [H|[H|H]]; discriminate H. }
  rewrite (detectPlayerSize_eq w).
  destruct (media (this w)) as [v|] eqn:Em; [|apply Hskip; now left].
  destruct (Qgtb (gateHeight w) 0 && Qgtb (gateWidth w) 0) eqn:Eg;
    [|apply Hskip; right; left; exact Eg].
  destruct (Hls.levels (hls w)) as [|x rest] eqn:El; [apply Hskip; now right; right|].
  cbn [world_of]. rewrite (detectPlayerSize_eq (afterTick w)).
  change (media (this (afterTick w))) with (media (this w)).
  change (Hls.levels (hls (afterTick w))) with (Hls.levels (hls w)).
  rewrite Em, El.
  destruct (Qgtb (gateHeight (afterTick w)) 0 && Qgtb (gateWidth (afterTick w)) 0).
  - exists (tickEffects (afterTick w)). split; [reflexivity|]. split.
    + unfold tickEffects.
      change (autoLevelCapping (this (afterTick w))) with (Finite (tickCap w)).
      change (tickCap (afterTick w)) with (tickCap w).
      cbn [gt_number]. now rewrite Z.ltb_irrefl.
    + reflexivity.
  - exists []. rewrite app_nil_r. now repeat split.
Qed.

Lemma Qgtb_pos (x : Q) : (0 < x)%Q -> Qgtb x 0 = true.
Proof.
  intros H. unfold Qgtb. apply negb_true_iff, not_true_iff_false.
  rewrite Qle_bool_iff. now apply Qlt_not_le.
Qed.

(** Attaching a video element discards whatever measurement was cached, so
    the next tick measures the new element: if it is laid out and there are
    levels, that tick publishes the cap [getMaxLevel] computes for it, however
    stale or empty the cache was before. *)
Theorem attach_then_tick_publishes (w : World) (v : HTMLVideoElement) (cap : Z) :
  let w1 := world_of (onMediaAttaching (VideoElement v) w) in
  (0 < targetWidth w1)%Q ->
  (0 < targetHeight w1)%Q ->
  Hls.levels (hls w) <> [] ->
  value_of (getMaxLevel (length_Z (Hls.levels (hls w)) - 1) w1) = Some cap ->
  Hls.autoLevelCapping (hls (run [MEDIA_ATTACHING (VideoElement v); TimerTick] w)) = cap.
Proof.
  intros w1 Hw Hh Hl Hc. cbn [run handle]. fold w1.
  rewrite detectPlayerSize_eq.
  change (media (this w1)) with (Some v).
  change (gateHeight w1) with (targetHeight w1).
  change (gateWidth w1) with (targetWidth w1).
  rewrite (Qgtb_pos _ Hw), (Qgtb_pos _ Hh). cbn [andb].
  rewrite getMaxLevel_eq in Hc.
  change (Hls.levels (hls w1)) with (Hls.levels (hls w)) in *.
  destruct (Hls.levels (hls w)) as [|x rest] eqn:El; [congruence|].
  cbn [value_of] in Hc. injection Hc as <-.
  cbn [world_of]. unfold afterTick, tickCap. cbn [hls].
  change (Hls.levels (hls w1)) with (Hls.levels (hls w)). rewrite El. reflexivity.
Qed.

Lemma attach_then_tick_publishes_witness :
  Hls.autoLevelCapping
    (hls (run [MEDIA_ATTACHING (VideoElement 3%nat); TimerTick]
              (run [HostChange (hlsOf ladderABC (-1)) (pageOf 1280 720)] stuckWorld)))
  = 2.
Proof.
  apply (attach_then_tick_publishes
           (run [HostChange (hlsOf ladderABC (-1)) (pageOf 1280 720)] stuckWorld)
           3%nat 2);
    try reflexivity.
  discriminate.
Defined.

(** * The build configuration *)

(** Without an explicit output file, two configurations write the same
    bundle only if they have the same build type and minification and their
    formats share an extension ([umd] and [iife] both write [.js]). *)
Theorem buildRollupConfig_output_files
  (type type' : BuildConfig.BUILD_TYPE) (minified minified' : bool)
  (fmt fmt' : BuildConfig.FORMAT) (coverage coverage' : bool) :
  BuildConfig.file
    (BuildConfig.output (BuildConfig.buildRollupConfig type minified fmt coverage None))
  = BuildConfig.file
      (BuildConfig.output
         (BuildConfig.buildRollupConfig type' minified' fmt' coverage' None))
  <-> type = type' /\ minified = minified'
      /\ BuildConfig.FORMAT_eqb fmt BuildConfig.esm
         = BuildConfig.FORMAT_eqb fmt' BuildConfig.esm.
Proof.
  destruct type, type', minified, minified', fmt, fmt'; vm_compute;
    (split; [intros H; try discriminate H; repeat split
            | intros [H1 [H2 H3]]; try discriminate H1; try discriminate H2;
              try discriminate H3; reflexivity]).
Qed.

(** The worker wrapper and the worker itself go together: a configuration
    carries the banner and the footer exactly when the transmuxer worker is
    not aliased away, and that is for every format but [esm]. *)
Theorem buildRollupConfig_worker_bundle
  (type : BuildConfig.BUILD_TYPE) (minified : bool) (fmt : BuildConfig.FORMAT)
  (coverage : bool) (outputFile : option String.string) :
  let c := BuildConfig.buildRollupConfig type minified fmt coverage outputFile in
  existsb (BuildConfig.Plugin_eqb BuildConfig.aliasTransmuxerWorker)
          (BuildConfig.plugins c)
  = BuildConfig.FORMAT_eqb fmt BuildConfig.esm
  /\ (BuildConfig.banner (BuildConfig.output c) = None
      <-> BuildConfig.FORMAT_eqb fmt BuildConfig.esm = true)
  /\ (BuildConfig.footer (BuildConfig.output c) = None
      <-> BuildConfig.FORMAT_eqb fmt BuildConfig.esm = true).
Proof.
  destruct type, minified, fmt, coverage; cbn;
    (split; [reflexivity|]); split; split; intros H;
    try reflexivity; discriminate H.
Qed.
